(** * rlil: asynchronous sampling and replay buffers

    A shallow embedding of [rlil/samplers/asyncsampler.py] and
    [rlil/initializer.py], and of the replay buffers of [rlil.memory] that
    [tests/memory/replay_buffer_test.py] exercises.

    Python objects that are mutated in place become explicit state: the Ray
    runtime, the process-wide replay-buffer singleton and the sampler object
    are records threaded through every call, and an exception is a value of
    [result].  Rewards and weights are rationals. *)

From Stdlib Require Import ZArith QArith Qround Qpower Bool List Lia String.
From stdpp Require Import base list gmap strings.
Import ListNotations.

Local Open Scope nat_scope.

(** ** Python exceptions and results *)

Inductive exn : Type :=
  | AssertionError (msg : string)
  | ValueError (msg : string)
  | TypeError (msg : string)
  | KeyError.

Inductive result (A : Type) : Type :=
  | Ok (a : A)
  | Raise (e : exn).

Arguments Ok {A} a.
Arguments Raise {A} e.

(** A budget is a number or [np.inf], the default of both budgets. *)
Inductive budget : Type :=
  | Finite (n : Z)
  | Infinite.

Definition is_inf (b : budget) : bool :=
  match b with Infinite => true | Finite _ => false end.

(** [k < b] for a counter [k]. *)
Definition lt_budget (k : nat) (b : budget) : bool :=
  match b with
  | Finite n => (Z.of_nat k <? n)%Z
  | Infinite => true
  end.

(** ** The sampling unit: [Worker.sample] *)

Module Worker.

(** The environment capability: [reset()], [step(action)], the [done]
    observer, and [state]/[reward] read together as one observation. *)
Class Environment (E A Ob : Type) : Type := {
  reset : E -> E;
  step : E -> A -> E;
  done : E -> bool;
  observe : E -> Ob
}.

(** The lazy agent: [act] returns an action and records into the agent's own
    buffer, so the agent is threaded through. *)
Class LazyAgent (G A Ob B : Type) : Type := {
  act : G -> Ob -> G * A;
  buffer : G -> B
}.

(** What the rollout does, in order: an evaluation of the outer [while]
    condition (line 37) with the counters it reads, [env.reset()] (line 38)
    and [env.step(action)] (line 42). *)
Inductive event : Type :=
  | EvCheck (frames episodes : nat)
  | EvReset
  | EvStep.

Record worker (E : Type) : Type := mkWorker {
  env : E;
  frames : nat;
  episodes : nat;
  trace : list event
}.

Arguments mkWorker {E} _ _ _ _.
Arguments env {E} _.
Arguments frames {E} _.
Arguments episodes {E} _.
Arguments trace {E} _.

(** Does every step have an evaluation of the budgets right after it? *)
Fixpoint checked_after_every_step (tr : list event) : bool :=
  match tr with
  | [] => true
  | EvStep :: rest =>
      match rest with
      | EvCheck _ _ :: _ => checked_after_every_step rest
      | _ => false
      end
  | _ :: rest => checked_after_every_step rest
  end.

Definition count_checks (tr : list event) : nat :=
  length (List.filter (fun ev => match ev with EvCheck _ _ => true | _ => false end) tr).

Definition count_steps (tr : list event) : nat :=
  length (List.filter (fun ev => match ev with EvStep => true | _ => false end) tr).

Section Rollout.

Context {E A Ob G B : Type} `{Environment E A Ob} `{LazyAgent G A Ob B}.

(** Lines 41-44: [while not self._env.done: step; frames += 1; act]. *)
Fixpoint episode_loop (fuel : nat) (w : worker E) (g : G) (a : A)
  : option (worker E * G) :=
  if done (env w) then Some (w, g)
  else
    match fuel with
    | O => None
    | S fuel' =>
        let e' := step (env w) a in
        let w' := mkWorker e' (S (frames w)) (episodes w)
                    (trace w ++ [EvStep]) in
        let '(g', a') := act g (observe e') in
        episode_loop fuel' w' g' a'
    end.

(** Lines 37-46: the outer loop, one episode per iteration. *)
Fixpoint sample_loop (fuel : nat) (max_frames max_episodes : budget)
    (w : worker E) (g : G) : option (worker E * G) :=
  let w0 := mkWorker (env w) (frames w) (episodes w)
              (trace w ++ [EvCheck (frames w) (episodes w)]) in
  if lt_budget (frames w) max_frames && lt_budget (episodes w) max_episodes
  then
    match fuel with
    | O => None
    | S fuel' =>
        let w1 := mkWorker (reset (env w0)) (frames w0) (episodes w0)
                    (trace w0 ++ [EvReset]) in
        let '(g1, a) := act g (observe (env w1)) in
        match episode_loop fuel' w1 g1 a with
        | None => None
        | Some (w2, g2) =>
            sample_loop fuel' max_frames max_episodes
              (mkWorker (env w2) (frames w2) (S (episodes w2)) (trace w2)) g2
        end
    end
  else Some (w0, g).

(** Lines 32-51: the counters start from zero at every call, and the batch
    returned is read off the agent's buffer. *)
Definition sample (fuel : nat) (w : worker E) (g : G)
    (max_frames max_episodes : budget) : option (worker E * B) :=
  match sample_loop fuel max_frames max_episodes
          (mkWorker (env w) 0 0 []) g with
  | None => None
  | Some (w', g') => Some (w', buffer g')
  end.

(** How many more episodes the outer loop can start. *)
Definition episodes_left (max_frames max_episodes : budget) (w : worker E) : nat :=
  match max_episodes with
  | Finite n => Z.to_nat (n - Z.of_nat (episodes w))
  | Infinite =>
      match max_frames with
      | Finite n => Z.to_nat (n - Z.of_nat (frames w))
      | Infinite => 0
      end
  end.

(** What holds of the counters whenever the budgets are evaluated, [L]
    bounding the length of an episode. *)
Definition within (L : nat) (max_frames max_episodes : budget) (w : worker E) : Prop :=
  (forall n, max_episodes = Finite n -> (Z.of_nat (episodes w) <= Z.max 0 n)%Z) /\
  (forall n, max_frames = Finite n ->
     (Z.of_nat (frames w) <= Z.max 0 (n - 1) + Z.of_nat L)%Z) /\
  count_steps (trace w) = frames w.

End Rollout.

(** An environment whose episodes last [len] steps: the state is the number
    of steps left. *)
Definition countdown (len : nat) : Environment nat unit unit := {|
  reset := fun _ => len;
  step := fun e _ => Nat.pred e;
  done := fun e => Nat.eqb e 0;
  observe := fun _ => tt
|}.

(** An agent that records how many times it was asked to act. *)
Definition counting_agent : LazyAgent nat unit unit nat := {|
  act := fun g _ => (S g, tt);
  buffer := fun g => g
|}.

End Worker.

(** ** Python values a method can return *)

Inductive pyvalue : Type :=
  | PyNone
  | PyInt (z : Z)
  | PyDict (items : list (string * Z)).

(** [d[key]] on a returned value: subscripting anything but a dictionary
    that has the key raises. *)
Fixpoint dict_items_get (key : string) (items : list (string * Z))
  : option Z :=
  match items with
  | [] => None
  | (k, v) :: rest => if String.eqb k key then Some v else dict_items_get key rest
  end.

Definition subscript (v : pyvalue) (key : string) : result pyvalue :=
  match v with
  | PyDict items =>
      match dict_items_get key items with
      | Some x => Ok (PyInt x)
      | None => Raise KeyError
      end
  | PyNone => Raise (TypeError "'NoneType' object is not subscriptable")
  | PyInt _ => Raise (TypeError "'int' object is not subscriptable")
  end.

(** ** Insertion-ordered dictionaries *)

Section Dict.

Context {V : Type}.

Fixpoint dict_get (k : nat) (d : list (nat * V)) : option V :=
  match d with
  | [] => None
  | (k', v) :: rest => if Nat.eqb k' k then Some v else dict_get k rest
  end.

(** [d[k] = v]: an existing key keeps its place, a new one goes last. *)
Fixpoint dict_set (k : nat) (v : V) (d : list (nat * V)) : list (nat * V) :=
  match d with
  | [] => [(k, v)]
  | (k', v') :: rest =>
      if Nat.eqb k' k then (k', v) :: rest else (k', v') :: dict_set k v rest
  end.

End Dict.

(** ** The process, the Ray runtime and the sampler *)

Module Ray.

(** Handles of remote actors and of the results of remote calls. *)
Definition ActorHandle : Type := nat.
Definition ObjectID : Type := nat.

End Ray.

Section Sampler.

(** The environment, the lazy agent and the trajectory batch are opaque to
    the sampler. *)
Context {Env Agent Batch : Type}.

(** A call of [worker.sample.remote(lazy_agent, max_frames, max_episodes)]
    that Ray has accepted. *)
Record job : Type := mkJob {
  job_id : Ray.ObjectID;
  job_worker : Ray.ActorHandle;
  job_agent : Agent;
  job_max_frames : budget;
  job_max_episodes : budget
}.

(** The state outside the sampler object: the module global of
    [initializer.py], the actors and jobs Ray holds, and for every replay
    buffer object the batches passed to its [store], oldest first. *)
Record world : Type := mkWorld {
  _REPLAY_BUFFER : option nat;
  ray_actors : list (Ray.ActorHandle * Z);
  ray_jobs : list job;
  stored : list (nat * list Batch)
}.

(** [initializer.set_replay_buffer] and [initializer.get_replay_buffer]. *)
Definition set_replay_buffer (replay_buffer : option nat) (w : world) : world :=
  mkWorld replay_buffer (ray_actors w) (ray_jobs w) (stored w).

Definition get_replay_buffer (w : world) : result nat :=
  match _REPLAY_BUFFER w with
  | None => Raise (ValueError "replay_buffer is not set")
  | Some rb => Ok rb
  end.

(** [Worker.remote(make_env, seed)]: a new actor, with a new handle. *)
Definition Worker_remote (seed : Z) (w : world) : Ray.ActorHandle * world :=
  let h := length (ray_actors w) in
  (h, mkWorld (_REPLAY_BUFFER w) (ray_actors w ++ [(h, seed)])
        (ray_jobs w) (stored w)).

(** [worker.sample.remote(...)]: the job is handed to Ray, which returns the
    identifier of its future result at once. *)
Definition sample_remote (worker : Ray.ActorHandle) (lazy_agent : Agent)
    (max_frames max_episodes : budget) (w : world) : Ray.ObjectID * world :=
  let oid := length (ray_jobs w) in
  (oid, mkWorld (_REPLAY_BUFFER w) (ray_actors w)
          (ray_jobs w ++ [mkJob oid worker lazy_agent max_frames max_episodes])
          (stored w)).

(** [ray.wait(object_ids, num_returns=1, timeout=timeout)].  Ray checks
    first that every element of the list is an [ObjectID] and raises
    [TypeError] otherwise; then the first identifier whose result arrives
    within the timeout is the ready one.  [completes] says which results
    arrive in time. *)
Fixpoint all_object_ids (object_ids : list (option Ray.ObjectID))
  : option (list Ray.ObjectID) :=
  match object_ids with
  | [] => Some []
  | None :: _ => None
  | Some oid :: rest =>
      match all_object_ids rest with
      | Some oids => Some (oid :: oids)
      | None => None
      end
  end.

Fixpoint split_ready (completes : Ray.ObjectID -> bool)
    (oids : list Ray.ObjectID) : list Ray.ObjectID * list Ray.ObjectID :=
  match oids with
  | [] => ([], [])
  | oid :: rest =>
      if completes oid then ([oid], rest)
      else let '(ready, remaining) := split_ready completes rest in
           (ready, oid :: remaining)
  end.

Definition ray_wait (completes : Ray.ObjectID -> bool)
    (object_ids : list (option Ray.ObjectID))
  : result (list Ray.ObjectID * list Ray.ObjectID) :=
  match all_object_ids object_ids with
  | None =>
      Raise (TypeError "wait() expected a list of ray.ObjectID, got list containing <class 'NoneType'>")
  | Some oids => Ok (split_ready completes oids)
  end.

(** [replay_buffer.store] of one batch, on the buffer object [rb]. *)
Definition buffer_store (rb : nat) (batch : Batch) (w : world) : world :=
  let old := match dict_get rb (stored w) with Some bs => bs | None => [] end in
  mkWorld (_REPLAY_BUFFER w) (ray_actors w) (ray_jobs w)
    (dict_set rb (old ++ [batch]) (stored w)).

Definition batches_of (rb : nat) (w : world) : list Batch :=
  match dict_get rb (stored w) with Some bs => bs | None => [] end.

(** The fields of an [AsyncSampler] object. *)
Record sampler : Type := mkSampler {
  _env : Env;
  _workers : list Ray.ActorHandle;
  _work_ids : list (Ray.ActorHandle * option Ray.ObjectID);
  _replay_buffer : nat
}.

(** Line 71-72: one remote worker per index of [range(num_workers)]. *)
Fixpoint make_workers (seed : Z) (i count : nat) (w : world)
  : list Ray.ActorHandle * world :=
  match count with
  | O => ([], w)
  | S count' =>
      let '(h, w1) := Worker_remote (seed + Z.of_nat i)%Z w in
      let '(hs, w2) := make_workers seed (S i) count' w1 in
      (h :: hs, w2)
  end.

(** Lines 64-74.  The workers exist by the time the buffer is looked up. *)
Definition __init__ (env : Env) (num_workers : Z) (seed : Z) (w : world)
  : result sampler * world :=
  let '(workers, w1) := make_workers seed 0 (Z.to_nat num_workers) w in
  let work_ids := fold_left (fun d worker => dict_set worker None d) workers [] in
  match get_replay_buffer w1 with
  | Raise e => (Raise e, w1)
  | Ok rb => (Ok (mkSampler env workers work_ids rb), w1)
  end.

(** Lines 85-88: the loop over [self._workers]. *)
Fixpoint start_loop (workers : list Ray.ActorHandle) (lazy_agent : Agent)
    (max_frames max_episodes : budget) (s : sampler) (w : world)
  : result pyvalue * sampler * world :=
  match workers with
  | [] => (Ok PyNone, s, w)
  | worker :: rest =>
      match dict_get worker (_work_ids s) with
      | None => (Raise KeyError, s, w)
      | Some None =>
          let '(oid, w') :=
            sample_remote worker lazy_agent max_frames max_episodes w in
          let s' := mkSampler (_env s) (_workers s)
                      (dict_set worker (Some oid) (_work_ids s))
                      (_replay_buffer s) in
          start_loop rest lazy_agent max_frames max_episodes s' w'
      | Some (Some _) =>
          start_loop rest lazy_agent max_frames max_episodes s w
      end
  end.

(** Lines 76-88. *)
Definition start_sampling (s : sampler) (lazy_agent : Agent)
    (max_frames max_episodes : budget) (w : world)
  : result pyvalue * sampler * world :=
  if negb (negb (is_inf max_frames) || negb (is_inf max_episodes)) then
    (Raise (AssertionError "max_frames or max_episodes must be specified"), s, w)
  else start_loop (_workers s) lazy_agent max_frames max_episodes s w.

(** Lines 92-97: the loop over [self._work_ids.items()].  [fetch] is
    [ray.get] on a ready result. *)
Fixpoint store_loop (items : list (Ray.ActorHandle * option Ray.ObjectID))
    (completes : Ray.ObjectID -> bool) (fetch : Ray.ObjectID -> Batch)
    (s : sampler) (w : world) : result pyvalue * sampler * world :=
  match items with
  | [] => (Ok PyNone, s, w)
  | (worker, _id) :: rest =>
      match ray_wait completes [_id] with
      | Raise e => (Raise e, s, w)
      | Ok (ready_id, remaining_id) =>
          match ready_id with
          | oid :: _ =>
              store_loop rest completes fetch s
                (buffer_store (_replay_buffer s) (fetch oid) w)
          | [] => store_loop rest completes fetch s w
          end
      end
  end.

(** Lines 90-97.  The method has no [return] statement. *)
Definition store_samples (s : sampler)
    (completes : Ray.ObjectID -> bool) (fetch : Ray.ObjectID -> Batch)
    (w : world) : result pyvalue * sampler * world :=
  store_loop (_work_ids s) completes fetch s w.

(** A caller's use of the sampler: a sequence of calls of its methods and
    of [set_replay_buffer], an exception being caught and the objects kept
    as the call left them. *)
Inductive call : Type :=
  | CallStart (lazy_agent : Agent) (max_frames max_episodes : budget)
  | CallStore (completes : Ray.ObjectID -> bool) (fetch : Ray.ObjectID -> Batch)
  | CallSetReplayBuffer (replay_buffer : option nat).

Definition do_call (sw : sampler * world) (c : call) : sampler * world :=
  match c with
  | CallStart g mf me =>
      let '(_, s', w') := start_sampling (fst sw) g mf me (snd sw) in (s', w')
  | CallStore completes fetch =>
      let '(_, s', w') := store_samples (fst sw) completes fetch (snd sw) in (s', w')
  | CallSetReplayBuffer rb => (fst sw, set_replay_buffer rb (snd sw))
  end.

Definition run (calls : list call) (sw : sampler * world) : sampler * world :=
  fold_left do_call calls sw.

(** The jobs Ray holds for one worker. *)
Definition jobs_of (worker : Ray.ActorHandle) (w : world) : list job :=
  List.filter (fun j => Nat.eqb (job_worker j) worker) (ray_jobs w).

(** Is the unit recorded as idle, so that [start_sampling] gives it a job? *)
Definition idle (worker : Ray.ActorHandle) (s : sampler) : bool :=
  match dict_get worker (_work_ids s) with
  | Some None => true
  | _ => false
  end.

Definition busy (worker : Ray.ActorHandle) (s : sampler) : bool :=
  match dict_get worker (_work_ids s) with
  | Some (Some _) => true
  | _ => false
  end.

(** Every job Ray holds was given to an actor that exists. *)
Definition world_ok (w : world) : bool :=
  forallb (fun j => job_worker j <? length (ray_actors w)) (ray_jobs w).

(** Every worker of the sampler has its entry in [_work_ids]. *)
Definition keys_ok (s : sampler) : Prop :=
  forall worker, In worker (_workers s) -> dict_get worker (_work_ids s) <> None.

(** A worker recorded as busy has at most one job with Ray, any other
    worker of the sampler has none. *)
Definition one_job (s : sampler) (w : world) : Prop :=
  forall worker, In worker (_workers s) ->
    length (jobs_of worker w) <= (if busy worker s then 1 else 0).

End Sampler.

Arguments job : clear implicits.
Arguments world : clear implicits.
Arguments sampler : clear implicits.
Arguments call : clear implicits.

(** A process in which nothing has happened yet. *)
Definition fresh_world {Agent Batch : Type} (replay_buffer : option nat)
  : world Agent Batch :=
  mkWorld replay_buffer [] [] [].

(** ** Replay buffers *)

Module Memory.

Local Open Scope Q_scope.

(** A state carries its features and the alive mask ([false] = terminal). *)
Record State : Type := mkState {
  features : list Q;
  mask : bool
}.

Definition Action : Type := list Q.

Record transition : Type := mkTransition {
  state : State;
  action : Action;
  reward : Q;
  next_state : State
}.

(** The interface every buffer offers to the code that fills it. *)
Class ReplayBuffer (B : Type) : Type := {
  store : transition -> B -> B;
  len : B -> nat
}.

(** Modelled from the spec: [rlil.memory.ExperienceReplayBuffer] is not
    among the sources.  A fixed-capacity mapping from slot index to
    transition with a logical length; once full, a store overwrites the
    oldest slot, in ring order. *)
Record ExperienceReplayBuffer : Type := mkExperienceReplayBuffer {
  capacity : nat;
  buffer : list transition;
  pos : nat
}.

Definition new_buffer (size : nat) : ExperienceReplayBuffer :=
  mkExperienceReplayBuffer size [] 0.

Definition experience_store (t : transition) (b : ExperienceReplayBuffer)
  : ExperienceReplayBuffer :=
  if (length (buffer b) <? capacity b)%nat then
    mkExperienceReplayBuffer (capacity b) (buffer b ++ [t])
      ((pos b + 1) mod capacity b)%nat
  else
    mkExperienceReplayBuffer (capacity b) (<[pos b := t]> (buffer b))
      ((pos b + 1) mod capacity b)%nat.

#[global] Instance experience_buffer : ReplayBuffer ExperienceReplayBuffer := {|
  store := experience_store;
  len := fun b => length (buffer b)
|}.

(** *** The n-step buffer *)

(** Modelled from the spec: the discounted return of a window,
    [R = sum over k of gamma^k * r_k], the rewards taken oldest first. *)
Fixpoint discounted_return (gamma : Q) (k : nat) (rewards : list Q) : Q :=
  match rewards with
  | [] => 0
  | r :: rest => gamma ^ Z.of_nat k * r + discounted_return gamma (S k) rest
  end.

(** Modelled from the spec: the single transition synthesized from a window
    [first :: rest]: the first state and action, the return, and the last
    next state (with its mask). *)
Definition synthesize (gamma : Q) (first : transition)
    (rest : list transition) : transition :=
  mkTransition (state first) (action first)
    (discounted_return gamma 0 (List.map reward (first :: rest)))
    (next_state (List.last rest first)).

(** Modelled from the spec: on a terminal transition every partial window is
    flushed, each from its start to the terminal transition. *)
Fixpoint partial_windows (gamma : Q) (w : list transition) : list transition :=
  match w with
  | [] => []
  | first :: rest => synthesize gamma first rest :: partial_windows gamma rest
  end.

Section NStep.

Context {B : Type} `{ReplayBuffer B}.

(** Modelled from the spec: [rlil.memory.NStepReplayBuffer] is not among the
    sources.  It wraps an inner buffer and keeps the window of pending
    transitions, oldest first. *)
Record NStepReplayBuffer : Type := mkNStepReplayBuffer {
  steps : nat;
  discount_factor : Q;
  inner : B;
  window : list transition
}.

(** Modelled from the spec: what one [store] flushes, oldest window first,
    and the window it leaves.  A terminal transition flushes every pending
    window; otherwise a window that holds [steps] transitions is flushed
    once and slid by one position. *)
Definition flush (b : NStepReplayBuffer) (t : transition)
  : list transition * list transition :=
  let w := window b ++ [t] in
  if negb (mask (next_state t)) then
    (partial_windows (discount_factor b) w, [])
  else if (steps b <=? length w)%nat then
    match w with
    | first :: rest => ([synthesize (discount_factor b) first rest], rest)
    | [] => ([], [])
    end
  else ([], w).

(** Modelled from the spec: [NStepReplayBuffer.store], the flushed
    transitions forwarded to the inner buffer's [store] in order. *)
Definition nstep_store (t : transition) (b : NStepReplayBuffer)
  : NStepReplayBuffer :=
  let '(flushed, w) := flush b t in
  mkNStepReplayBuffer (steps b) (discount_factor b)
    (fold_left (fun i x => store x i) flushed (inner b)) w.

(** Everything a sequence of stores flushes, in order. *)
Fixpoint flushed_by (b : NStepReplayBuffer) (ts : list transition)
  : list transition :=
  match ts with
  | [] => []
  | t :: rest => fst (flush b t) ++ flushed_by (nstep_store t b) rest
  end.

Definition store_all (ts : list transition) (b : NStepReplayBuffer)
  : NStepReplayBuffer :=
  fold_left (fun acc t => nstep_store t acc) ts b.

End NStep.

Arguments NStepReplayBuffer : clear implicits.

#[global] Instance nstep_buffer {B : Type} `{ReplayBuffer B}
  : ReplayBuffer (NStepReplayBuffer B) := {|
  store := nstep_store;
  len := fun b => len (inner b)
|}.

(** The transitions of [replay_buffer_test.py]: state [i], action [i],
    reward [i], next state [i + 1], all alive. *)
Definition alive (x : Z) : State := mkState [inject_Z x] true.
Definition terminal (x : Z) : State := mkState [inject_Z x] false.

Definition ramp_transition (i : nat) : transition :=
  mkTransition (alive (Z.of_nat i)) [inject_Z (Z.of_nat i)]
    (inject_Z (Z.of_nat i)) (alive (Z.of_nat i + 1)).

Definition ramp (count : nat) : list transition :=
  List.map ramp_transition (seq 0 count).

(** The buffer of [TestNStepReplayBuffer.setUp]. *)
Definition test_buffer : NStepReplayBuffer ExperienceReplayBuffer :=
  mkNStepReplayBuffer 4 (1 # 2) (new_buffer 100) [].

(** The transitions of [TestNStepReplayBuffer.test_done]: reward 1, from
    an alive state into an alive or a terminal one. *)
Definition live_transition : transition :=
  mkTransition (alive 1) [0] 1 (alive 1).
Definition done_transition : transition :=
  mkTransition (alive 1) [0] 1 (terminal 1).

(** *** The prioritized buffer *)

(** The largest element of a non-empty list. *)
Definition Qlist_max (first : Q) (rest : list Q) : Q :=
  fold_left (fun m x => if Qle_bool m x then x else m) rest first.

Definition Qsum (l : list Q) : Q := fold_right Qplus 0 l.

Section Prioritized.

(** [power x y] is [x ** y], which the buffer computes on floats. *)
Variable power : Q -> Q -> Q.

(** Modelled from the spec: [rlil.memory.PrioritizedReplayBuffer] is not
    among the sources.  The storage of the uniform buffer with a parallel
    array of per-slot priorities, the exponent [alpha], and the indices of
    the most recent [sample]. *)
Record PrioritizedReplayBuffer : Type := mkPrioritizedReplayBuffer {
  p_capacity : nat;
  alpha : Q;
  p_buffer : list transition;
  priorities : list Q;
  p_pos : nat;
  sampled : list nat
}.

(** Modelled from the spec: a new entry gets the largest priority of the
    stored slots, or 1 in an empty buffer. *)
Definition max_priority (b : PrioritizedReplayBuffer) : Q :=
  match priorities b with
  | [] => 1
  | p :: ps => Qlist_max p ps
  end.

Definition prioritized_store (t : transition) (b : PrioritizedReplayBuffer)
  : PrioritizedReplayBuffer :=
  let p := max_priority b in
  if (length (p_buffer b) <? p_capacity b)%nat then
    mkPrioritizedReplayBuffer (p_capacity b) (alpha b) (p_buffer b ++ [t])
      (priorities b ++ [p]) ((p_pos b + 1) mod p_capacity b)%nat (sampled b)
  else
    mkPrioritizedReplayBuffer (p_capacity b) (alpha b)
      (<[p_pos b := t]> (p_buffer b)) (<[p_pos b := p]> (priorities b))
      ((p_pos b + 1) mod p_capacity b)%nat (sampled b).

(** Modelled from the spec: the sampling probability of slot [i] is
    proportional to [priority_i ** alpha]. *)
Definition scaled (b : PrioritizedReplayBuffer) : list Q :=
  List.map (fun p => power p (alpha b)) (priorities b).

Definition probability (b : PrioritizedReplayBuffer) (i : nat) : Q :=
  nth i (scaled b) 0 / Qsum (scaled b).

(** Modelled from the spec: the importance-sampling weight of slot [i]
    before normalization, [(1 / (N * P_i)) ** beta], [N] the number of
    stored transitions. *)
Definition raw_weight (b : PrioritizedReplayBuffer) (beta : Q) (i : nat) : Q :=
  power (1 / (inject_Z (Z.of_nat (length (priorities b))) * probability b i)) beta.

(** Modelled from the spec: the weights are normalized so that the largest
    weight is 1.  The largest weight is that of the least probable stored
    slot, whether it was drawn or not: the weights that
    [TestPrioritizedReplayBuffer] expects have rows that lie wholly below 1
    (three draws of one slot weigh 0.0631 each). *)
Definition max_weight (b : PrioritizedReplayBuffer) (beta : Q) : Q :=
  match List.map (raw_weight b beta) (seq 0 (length (priorities b))) with
  | [] => 1
  | x :: rest => Qlist_max x rest
  end.

Definition weight (b : PrioritizedReplayBuffer) (beta : Q) (i : nat) : Q :=
  raw_weight b beta i / max_weight b beta.

(** Modelled from the spec: [sample(n)] with the [n] indices that the
    random draw picked; an empty buffer, or an index that is not a stored
    slot, is an error.  It returns the transitions and their weights and
    remembers the indices for [update_priorities]. *)
Definition sample (b : PrioritizedReplayBuffer) (beta : Q) (drawn : list nat)
  : result (list transition * list Q * PrioritizedReplayBuffer) :=
  if (length (p_buffer b) =? 0)%nat then
    Raise (ValueError "cannot sample from an empty buffer")
  else
    match mapM (fun i => p_buffer b !! i) drawn with
    | None => Raise (ValueError "index out of range")
    | Some batch =>
        Ok (batch, List.map (weight b beta) drawn,
            mkPrioritizedReplayBuffer (p_capacity b) (alpha b) (p_buffer b)
              (priorities b) (p_pos b) drawn)
    end.

(** Modelled from the spec: [update_priorities(values)] sets the priorities
    of the indices of the most recent [sample], in order; another count is
    an error. *)
Definition update_priorities (values : list Q) (b : PrioritizedReplayBuffer)
  : result PrioritizedReplayBuffer :=
  if (length values =? length (sampled b))%nat then
    Ok (mkPrioritizedReplayBuffer (p_capacity b) (alpha b) (p_buffer b)
          (fold_left (fun ps iv => <[fst iv := snd iv]> ps)
             (combine (sampled b) values) (priorities b))
          (p_pos b) [])
  else Raise (ValueError "count mismatch").

End Prioritized.

(** Powers with an integer exponent are exact on rationals. *)
Definition integer_power (x y : Q) : Q := x ^ Qfloor y.

End Memory.

(** ** Views of the sampler *)

Section SamplerViews.

Context {Env : Type}.

(** Is there a unit without a job, that is an entry [None]? *)
Definition has_idle (s : sampler Env) : bool :=
  existsb (fun e => match snd e with None => true | Some _ => false end)
    (_work_ids s).

(** The jobs [store_samples] gets to wait on: those of the entries in front
    of the first entry without a job, in order. *)
Fixpoint waited (items : list (Ray.ActorHandle * option Ray.ObjectID))
  : list Ray.ObjectID :=
  match items with
  | [] => []
  | (_, None) :: _ => []
  | (_, Some oid) :: rest => oid :: waited rest
  end.

End SamplerViews.

(** ** The module globals of [initializer.py] *)

Module Initializer.

Section Globals.

(** Writers, loggers and replay buffers are objects of other modules;
    [dummy_writer] is [DummyWriter()] and [module_logger] is
    [logging.getLogger(__name__)]. *)
Context {Writer Logger Buffer : Type}.
Variable dummy_writer : Writer.
Variable module_logger : Logger.

(** The globals, whether CUDA is there, and the seeds that the generators
    of numpy and torch were last given ([None]: not seeded by this module). *)
Record state : Type := mkState {
  _DEVICE : string;
  _SEED : Z;
  _WRITER : Writer;
  _LOGGER : Logger;
  _REPLAY_BUFFER : option Buffer;
  cuda_is_available : bool;
  np_random_seed : option Z;
  torch_seed : option Z;
  torch_cuda_seed : option Z
}.

(** The module as it is after import (lines 9, 21, 37, 49, 61). *)
Definition initial (cuda : bool) : state :=
  mkState (if cuda then "cuda" else "cpu") 0 dummy_writer module_logger None
    cuda None None None.

Definition set_device (device : string) (st : state) : state :=
  mkState device (_SEED st) (_WRITER st) (_LOGGER st) (_REPLAY_BUFFER st)
    (cuda_is_available st) (np_random_seed st) (torch_seed st)
    (torch_cuda_seed st).

Definition get_device (st : state) : string := _DEVICE st.

(** Lines 24-30.  [np.random.seed] takes a seed between 0 and 2**32 - 1 and
    raises [ValueError] on any other; it is called first, so nothing is set
    when it raises. *)
Definition set_seed (seed : Z) (st : state) : result unit * state :=
  if ((0 <=? seed) && (seed <? 2 ^ 32))%Z then
    (Ok tt,
     mkState (_DEVICE st) seed (_WRITER st) (_LOGGER st) (_REPLAY_BUFFER st)
       (cuda_is_available st) (Some seed) (Some seed)
       (if cuda_is_available st then Some seed else torch_cuda_seed st))
  else (Raise (ValueError "Seed must be between 0 and 2**32 - 1"), st).

Definition get_seed (st : state) : Z := _SEED st.

Definition set_writer (writer : Writer) (st : state) : state :=
  mkState (_DEVICE st) (_SEED st) writer (_LOGGER st) (_REPLAY_BUFFER st)
    (cuda_is_available st) (np_random_seed st) (torch_seed st)
    (torch_cuda_seed st).

Definition get_writer (st : state) : Writer := _WRITER st.

Definition set_logger (logger : Logger) (st : state) : state :=
  mkState (_DEVICE st) (_SEED st) (_WRITER st) logger (_REPLAY_BUFFER st)
    (cuda_is_available st) (np_random_seed st) (torch_seed st)
    (torch_cuda_seed st).

Definition get_logger (st : state) : Logger := _LOGGER st.

Definition set_replay_buffer (replay_buffer : option Buffer) (st : state)
  : state :=
  mkState (_DEVICE st) (_SEED st) (_WRITER st) (_LOGGER st) replay_buffer
    (cuda_is_available st) (np_random_seed st) (torch_seed st)
    (torch_cuda_seed st).

Definition get_replay_buffer (st : state) : result Buffer :=
  match _REPLAY_BUFFER st with
  | None => Raise (ValueError "replay_buffer is not set")
  | Some rb => Ok rb
  end.

(** A program's calls of the setters, an exception being caught. *)
Inductive setter : Type :=
  | SetDevice (device : string)
  | SetSeed (seed : Z)
  | SetWriter (writer : Writer)
  | SetLogger (logger : Logger)
  | SetReplayBuffer (replay_buffer : option Buffer).

Definition apply_setter (st : state) (c : setter) : state :=
  match c with
  | SetDevice d => set_device d st
  | SetSeed seed => snd (set_seed seed st)
  | SetWriter x => set_writer x st
  | SetLogger l => set_logger l st
  | SetReplayBuffer rb => set_replay_buffer rb st
  end.

Definition run_setters (calls : list setter) (st : state) : state :=
  fold_left apply_setter calls st.

(** The argument of the last call of each setter, or [default] when there
    is none; for the seed, of the last call with a seed numpy takes. *)
Definition last_device (calls : list setter) (default : string) : string :=
  fold_left (fun acc c => match c with SetDevice d => d | _ => acc end)
    calls default.

Definition last_seed (calls : list setter) (default : Z) : Z :=
  fold_left (fun acc c =>
               match c with
               | SetSeed seed =>
                   if ((0 <=? seed) && (seed <? 2 ^ 32))%Z then seed else acc
               | _ => acc
               end) calls default.

Definition last_writer (calls : list setter) (default : Writer) : Writer :=
  fold_left (fun acc c => match c with SetWriter x => x | _ => acc end)
    calls default.

Definition last_logger (calls : list setter) (default : Logger) : Logger :=
  fold_left (fun acc c => match c with SetLogger l => l | _ => acc end)
    calls default.

Definition last_replay_buffer (calls : list setter) (default : option Buffer)
  : option Buffer :=
  fold_left (fun acc c => match c with SetReplayBuffer rb => rb | _ => acc end)
    calls default.

End Globals.

End Initializer.

(** ** [GAIL] of [agents/gail.py] *)

Module Gail.

(** What a call can raise besides the exceptions above. *)
Inductive raised : Type :=
  | Exn (e : exn)
  | AttributeError (msg : string)
  | ZeroDivisionError (msg : string).

Inductive outcome (A : Type) : Type :=
  | Returns (a : A)
  | Raises (e : raised).

Arguments Returns {A} a.
Arguments Raises {A} e.

Section Agent.

Context {Writer Logger Discriminator Policy : Type}.

(** A replay buffer object, with its [discriminator] attribute when it has
    one. *)
Record buffer_object : Type := mkBufferObject {
  buffer_id : nat;
  discriminator_attribute : option Discriminator
}.

(** The base agent, with its [replay_buffer] attribute when it is set. *)
Record base_agent_object : Type := mkBaseAgent {
  policy : Policy;
  replay_buffer_attribute : option buffer_object
}.

(** The fields that lines 33-45 assign, the loss function apart. *)
Record GAIL : Type := mkGAIL {
  base_agent : base_agent_object;
  replay_buffer : buffer_object;
  discriminator : Discriminator;
  writer : Writer;
  device : string;
  minibatch_size : Z;
  replay_start_size : Z;
  update_frequency : Z
}.

(** Lines 27-45.  The base agent is the caller's object: it comes back as
    the call left it, also when the call raises. *)
Definition __init__ (agent : base_agent_object)
    (minibatch_size replay_start_size update_frequency : Z)
    (st : @Initializer.state Writer Logger buffer_object)
  : outcome GAIL * base_agent_object :=
  match Initializer.get_replay_buffer st with
  | Raise e => (Raises (Exn e), agent)
  | Ok rb =>
      let agent' := mkBaseAgent (policy agent) (Some rb) in
      match discriminator_attribute rb with
      | None =>
          (Raises (AttributeError "object has no attribute 'discriminator'"),
           agent')
      | Some d =>
          (Returns (mkGAIL agent' rb d (Initializer.get_writer st)
                      (Initializer.get_device st)
                      minibatch_size replay_start_size update_frequency),
           agent')
      end
  end.

(** Lines 73-75, [len(self.replay_buffer)] and [self.writer.train_steps]
    read for the call: [and] evaluates the modulo only when the comparison
    holds, and the modulo by zero raises. *)
Definition _should_train (self : GAIL) (len_buffer train_steps : Z)
  : outcome bool :=
  if (replay_start_size self <? len_buffer)%Z then
    if (update_frequency self =? 0)%Z then
      Raises (ZeroDivisionError "integer division or modulo by zero")
    else Returns (train_steps mod update_frequency self =? 0)%Z
  else Returns false.

End Agent.

End Gail.

(** ** [MockWriter] of [tests/experiments/experiment_test.py] *)

Module MockWriter.

(** A step is given by the name of a counter or as a value. *)
Inductive step_value : Type :=
  | StepName (name : string)
  | StepCount (n : Z).

Section Writer.

Context {V : Type}.

(** [data] maps a key to its values and steps, both in the order of the
    calls. *)
Record MockWriter : Type := mkMockWriter {
  data : gmap string (list V * list step_value);
  label : string;
  sample_frames : Z;
  sample_episodes : Z;
  train_frames : Z
}.

(** Lines 14-19. *)
Definition __init__ (label : string) : MockWriter :=
  mkMockWriter ∅ label 0 1 0.

(** Lines 30-37: a name that is not a counter's comes back as it is. *)
Definition _get_step (self : MockWriter) (_type : step_value) : step_value :=
  match _type with
  | StepName name =>
      if String.eqb name "sample_frame" then StepCount (sample_frames self)
      else if String.eqb name "sample_episode" then StepCount (sample_episodes self)
      else if String.eqb name "train_frame" then StepCount (train_frames self)
      else _type
  | StepCount _ => _type
  end.

(** Lines 21-25. *)
Definition add_scalar (self : MockWriter) (key : string) (value : V)
    (step : step_value) : MockWriter :=
  let data1 :=
    match data self !! key with
    | None => <[key := ([], [])]> (data self)
    | Some _ => data self
    end in
  let entry := match data1 !! key with Some e => e | None => ([], []) end in
  let data2 := <[key := (fst entry ++ [value], snd entry)]> data1 in
  let entry2 := match data2 !! key with Some e => e | None => ([], []) end in
  mkMockWriter
    (<[key := (fst entry2, snd entry2 ++ [_get_step self step])]> data2)
    (label self) (sample_frames self) (sample_episodes self) (train_frames self).

(** A sequence of [add_scalar] calls. *)
Definition add_all (calls : list (string * V * step_value)) (self : MockWriter)
  : MockWriter :=
  fold_left (fun m c => add_scalar m (fst (fst c)) (snd (fst c)) (snd c))
    calls self.

(** The calls made with [key], in order. *)
Definition calls_for (key : string) (calls : list (string * V * step_value))
  : list (string * V * step_value) :=
  List.filter (fun c => String.eqb (fst (fst c)) key) calls.

End Writer.

Arguments MockWriter : clear implicits.

End MockWriter.

(** * Properties *)

(** ** The rollout loop *)

Section RolloutFacts.

Import Worker.

Context {E A Ob G B : Type} `{Environment E A Ob} `{LazyAgent G A Ob B}.

(** Episodes end: [rank] bounds the steps an episode still takes, and an
    episode starts with at most [L] steps to go. *)
Variable rank : E -> nat.
Variable L : nat.
Hypothesis rank_step : forall e a, done e = false -> rank (step e a) < rank e.
Hypothesis rank_reset : forall e, rank (reset e) <= L.

Lemma count_checks_app tr1 tr2 :
  count_checks (tr1 ++ tr2) = count_checks tr1 + count_checks tr2.
Proof. unfold count_checks. now rewrite List.filter_app, length_app. Qed.

Lemma count_steps_app tr1 tr2 :
  count_steps (tr1 ++ tr2) = count_steps tr1 + count_steps tr2.
Proof. unfold count_steps. now rewrite List.filter_app, length_app. Qed.

(** The inner loop runs the episode to its end: it only steps, once per
    frame, and looks at no budget. *)
Lemma episode_loop_runs fuel :
  forall (w : worker E) (g : G) (a : A),
    rank (env w) <= fuel ->
    exists w' g',
      episode_loop fuel w g a = Some (w', g') /\
      done (env w') = true /\
      episodes w' = episodes w /\
      frames w <= frames w' <= frames w + rank (env w) /\
      (done (env w) = false -> frames w < frames w') /\
      count_checks (trace w') = count_checks (trace w) /\
      count_steps (trace w') + frames w = count_steps (trace w) + frames w'.
Proof.
  induction fuel as [|fuel IH]; intros w g a Hfuel; simpl.
  - destruct (done (env w)) eqn:Hd.
    + exists w, g. repeat split; auto; try lia; congruence.
    + specialize (rank_step (env w) a Hd). lia.
  - destruct (done (env w)) eqn:Hd.
    + exists w, g. repeat split; auto; try lia; congruence.
    + pose proof (rank_step (env w) a Hd) as Hlt.
      destruct (act g (observe (step (env w) a))) as [g1 a1].
      destruct (IH (mkWorker (step (env w) a) (S (frames w)) (episodes w)
                      (trace w ++ [EvStep])) g1 a1) as
        (w' & g' & Hrun & Hdone & Hep & Hfr & _ & Hck & Hst);
        [simpl; lia|].
      cbn [env frames episodes trace] in *. exists w', g'.
      rewrite count_checks_app in Hck. rewrite count_steps_app in Hst.
      cbn in Hck, Hst.
      repeat split; auto; try lia.
Qed.

Lemma sample_loop_runs max_frames max_episodes :
  (is_inf max_episodes = false \/
   (is_inf max_frames = false /\ forall e, done (reset e) = false)) ->
  forall fuel (w : worker E) (g : G),
    episodes_left max_frames max_episodes w + L <= fuel ->
    within L max_frames max_episodes w ->
    count_checks (trace w) = episodes w ->
    exists w' g',
      sample_loop fuel max_frames max_episodes w g = Some (w', g') /\
      within L max_frames max_episodes w' /\
      count_checks (trace w') = S (episodes w').
Proof.
  intros Hfin fuel. induction fuel as [|fuel IH]; intros w g Hfuel Hin Hck.
  - cbn [sample_loop].
    assert (Hf : lt_budget (frames w) max_frames &&
                 lt_budget (episodes w) max_episodes = false).
    { unfold episodes_left in Hfuel.
      destruct max_episodes as [n|]; cbn.
      - replace (Z.of_nat (episodes w) <? n)%Z with false
          by (symmetry; apply Z.ltb_ge; lia).
        apply andb_false_r.
      - destruct Hfin as [Hfin|[Hfin _]]; [discriminate|].
        destruct max_frames as [n|]; [|discriminate]. cbn.
        replace (Z.of_nat (frames w) <? n)%Z with false
          by (symmetry; apply Z.ltb_ge; lia).
        reflexivity. }
    rewrite Hf. eexists _, g. split; [reflexivity|].
    destruct Hin as (He & Hfr & Hst). unfold within.
    cbn [env frames episodes trace].
    rewrite count_checks_app, count_steps_app. cbn.
    repeat split; auto; lia.
  - cbn [sample_loop].
    destruct (lt_budget (frames w) max_frames &&
              lt_budget (episodes w) max_episodes) eqn:Hcond.
    + apply andb_true_iff in Hcond as [Hcf Hce]. cbn [env frames episodes trace].
      destruct (act g (observe (reset (env w)))) as [g1 a].
      destruct (episode_loop_runs fuel
                  (mkWorker (reset (env w)) (frames w) (episodes w)
                     ((trace w ++ [EvCheck (frames w) (episodes w)]) ++ [EvReset]))
                  g1 a) as (w2 & g2 & Hrun & Hdone & Hep & Hfr & Hprog & Hcks & Hsts).
      { cbn. pose proof (rank_reset (env w)) as Hr.
        assert (1 <= episodes_left max_frames max_episodes w); [|lia].
        unfold episodes_left. destruct max_episodes as [n|].
        - cbn in Hce. apply Z.ltb_lt in Hce. lia.
        - destruct Hfin as [Hfin|[Hfin _]]; [discriminate|].
          destruct max_frames as [n|]; [|discriminate].
          cbn in Hcf. apply Z.ltb_lt in Hcf. lia. }
      rewrite Hrun. cbn [env frames episodes trace] in Hep, Hfr, Hprog, Hcks, Hsts.
      rewrite !count_checks_app in Hcks. rewrite !count_steps_app in Hsts.
      cbn in Hcks, Hsts.
      pose proof (rank_reset (env w)) as Hr.
      destruct Hin as (Hie & Hif & Hist).
      apply IH; cbn [env frames episodes trace].
      * unfold episodes_left in *. cbn [env frames episodes trace]. destruct max_episodes as [n|].
        -- cbn in Hce. apply Z.ltb_lt in Hce. lia.
        -- destruct Hfin as [Hfin|[Hfin Hnonempty]]; [discriminate|].
           destruct max_frames as [n|]; [|discriminate].
           cbn in Hcf. apply Z.ltb_lt in Hcf.
           specialize (Hprog (Hnonempty (env w))). lia.
      * unfold within; cbn [env frames episodes trace]. repeat split.
        -- intros n ->. cbn in Hce. apply Z.ltb_lt in Hce. lia.
        -- intros n ->. cbn in Hcf. apply Z.ltb_lt in Hcf. lia.
        -- lia.
      * lia.
    + eexists _, g. split; [reflexivity|].
      destruct Hin as (He & Hfr & Hst). unfold within.
      cbn [env frames episodes trace].
      rewrite count_checks_app, count_steps_app. cbn.
      repeat split; auto; lia.
Qed.

(** C3, as the code has it: [sample] returns once its fuel covers the
    episodes it may start, and then the episodes are within the episode
    budget and the frames pass the frame budget by less than one episode
    ([L] bounds an episode's length); the budgets are evaluated once before
    each episode and once at the end, and never between two steps. *)
Theorem sample_overshoot_one_episode :
  forall (w : worker E) (g : G) (max_frames max_episodes : budget),
    (is_inf max_episodes = false \/
     (is_inf max_frames = false /\ forall e, done (reset e) = false)) ->
    exists fuel0, forall fuel, fuel0 <= fuel ->
      exists w' batch,
        sample fuel w g max_frames max_episodes = Some (w', batch) /\
        (forall n, max_episodes = Finite n ->
           (Z.of_nat (episodes w') <= Z.max 0 n)%Z) /\
        (forall n, max_frames = Finite n ->
           (Z.of_nat (frames w') <= Z.max 0 (n - 1) + Z.of_nat L)%Z) /\
        count_steps (trace w') = frames w' /\
        count_checks (trace w') = S (episodes w').
Proof.
  intros w g max_frames max_episodes Hfin.
  exists (episodes_left max_frames max_episodes (mkWorker (env w) 0 0 []) + L).
  intros fuel Hfuel. unfold sample.
  destruct (sample_loop_runs max_frames max_episodes Hfin fuel
              (mkWorker (env w) 0 0 []) g Hfuel)
    as (w' & g' & Hrun & (He & Hf & Hs) & Hc).
  - unfold within; cbn. repeat split; intros; lia.
  - reflexivity.
  - rewrite Hrun. exists w', (buffer g'). auto.
Qed.

End RolloutFacts.

(** The run that the statements below look at: episodes of three steps and
    a frame budget of one. *)
Lemma sample_overshoot_one_episode_witness :
  exists fuel0, forall fuel, fuel0 <= fuel ->
    exists w' batch,
      @Worker.sample _ _ _ _ _ (Worker.countdown 3) Worker.counting_agent
        fuel (Worker.mkWorker 0 0 0 []) 0 (Finite 1) Infinite = Some (w', batch) /\
      (forall n, Infinite = Finite n ->
         (Z.of_nat (Worker.episodes w') <= Z.max 0 n)%Z) /\
      (forall n, Finite 1 = Finite n ->
         (Z.of_nat (Worker.frames w') <= Z.max 0 (n - 1) + Z.of_nat 3)%Z) /\
      Worker.count_steps (Worker.trace w') = Worker.frames w' /\
      Worker.count_checks (Worker.trace w') = S (Worker.episodes w').
Proof.
  apply (@sample_overshoot_one_episode _ _ _ _ _ (Worker.countdown 3)
           Worker.counting_agent (fun e => e) 3).
  - intros e a. cbn. destruct e; [discriminate|lia].
  - intros e. cbn. lia.
  - right. split; [reflexivity|]. intros e. reflexivity.
Defined.

(** C3, as the claim has it: were the frame budget looked at after every
    step, each step would be followed by an evaluation of the budgets.  With
    a frame budget of 1 and episodes of three steps, the second and third
    steps are taken although the budget is spent after the first, and three
    frames come back. *)
Lemma sample_steps_past_frame_budget :
  @Worker.sample _ _ _ _ _ (Worker.countdown 3) Worker.counting_agent
    10 (Worker.mkWorker 0 0 0 []) 0 (Finite 1) Infinite
  = Some (Worker.mkWorker 0 3 1
            [Worker.EvCheck 0 0; Worker.EvReset; Worker.EvStep;
             Worker.EvStep; Worker.EvStep; Worker.EvCheck 3 1], 4) /\
  Worker.checked_after_every_step
    [Worker.EvCheck 0 0; Worker.EvReset; Worker.EvStep;
     Worker.EvStep; Worker.EvStep; Worker.EvCheck 3 1] = false.
Proof. split; reflexivity. Qed.

(** ** The sampler *)

Section DictFacts.

Context {V : Type}.

Lemma dict_get_set_eq k (v : V) d : dict_get k (dict_set k v d) = Some v.
Proof.
  induction d as [|[k' v'] d IH]; cbn.
  - now rewrite Nat.eqb_refl.
  - destruct (Nat.eqb k' k) eqn:Hk; cbn; rewrite Hk; auto.
Qed.

Lemma dict_get_set_ne k k' (v : V) d :
  k <> k' -> dict_get k' (dict_set k v d) = dict_get k' d.
Proof.
  intros Hne. induction d as [|[k0 v0] d IH]; cbn.
  - destruct (Nat.eqb k k') eqn:Hk; auto.
    apply Nat.eqb_eq in Hk. contradiction.
  - destruct (Nat.eqb k0 k) eqn:Hk; cbn.
    + apply Nat.eqb_eq in Hk. subst k0.
      destruct (Nat.eqb k k') eqn:Hk'; auto.
      apply Nat.eqb_eq in Hk'. contradiction.
    + destruct (Nat.eqb k0 k'); auto.
Qed.

Lemma dict_get_set k k' (v : V) d :
  dict_get k' (dict_set k v d) = if Nat.eqb k k' then Some v else dict_get k' d.
Proof.
  destruct (Nat.eqb k k') eqn:Hk.
  - apply Nat.eqb_eq in Hk. subst. apply dict_get_set_eq.
  - apply Nat.eqb_neq in Hk. now apply dict_get_set_ne.
Qed.

End DictFacts.

Section SamplerFacts.

Context {Env Agent Batch : Type}.

Local Abbreviation sampler := (sampler Env).
Local Abbreviation world := (world Agent Batch).

(** [store_samples] writes to the replay buffer only: the sampler object,
    the jobs and the actors are as before, and what it returns is [None]. *)
Lemma store_loop_frame items completes fetch (s : sampler) (w : world) :
  let r := store_loop items completes fetch s w in
  snd (fst r) = s /\
  ray_jobs (snd r) = ray_jobs w /\
  ray_actors (snd r) = ray_actors w /\
  _REPLAY_BUFFER (snd r) = _REPLAY_BUFFER w /\
  match fst (fst r) with Ok v => v = PyNone | Raise _ => True end.
Proof.
  revert w. induction items as [|[worker [oid|]] rest IH]; intros w; cbn.
  - auto.
  - destruct (completes oid); cbn.
    + destruct (IH (buffer_store (_replay_buffer s) (fetch oid) w))
        as (H1 & H2 & H3 & H4 & H5). cbn in *. auto.
    + apply IH.
  - auto.
Qed.

Lemma jobs_of_app worker (w : world) j :
  List.filter (fun j0 : job Agent => Nat.eqb (job_worker j0) worker) (ray_jobs w ++ [j])
  = jobs_of worker w ++ (if Nat.eqb (job_worker j) worker then [j] else []).
Proof. unfold jobs_of. rewrite List.filter_app. reflexivity. Qed.

(** A unit that is not recorded as idle is passed over by the loop of
    [start_sampling]: its entry and its jobs stay. *)
Lemma start_loop_busy workers g mf me :
  forall (s : sampler) (w : world) worker,
    idle worker s = false ->
    let r := start_loop workers g mf me s w in
    dict_get worker (_work_ids (snd (fst r))) = dict_get worker (_work_ids s) /\
    jobs_of worker (snd r) = jobs_of worker w.
Proof.
  induction workers as [|x rest IH]; intros s w worker Hidle; cbn.
  - auto.
  - destruct (dict_get x (_work_ids s)) as [[oid|]|] eqn:Hx; cbn.
    + now apply IH.
    + assert (Hne : x <> worker).
      { intros ->. unfold idle in Hidle. now rewrite Hx in Hidle. }
      match goal with |- context [start_loop rest g mf me ?s1 ?w1] =>
        destruct (IH s1 w1 worker) as [H1 H2] end.
      { unfold idle in *. cbn. now rewrite dict_get_set_ne. }
      cbn in H1, H2. rewrite H1, H2. split.
      * now apply dict_get_set_ne.
      * unfold jobs_of at 1. cbn [ray_jobs]. rewrite jobs_of_app. cbn.
        apply Nat.eqb_neq in Hne. rewrite Hne. apply app_nil_r.
    + auto.
Qed.

(** The loop keeps the workers, the buffer that was bound, and the keys. *)
Lemma start_loop_frame workers g mf me :
  forall (s : sampler) (w : world),
    let r := start_loop workers g mf me s w in
    _workers (snd (fst r)) = _workers s /\
    _replay_buffer (snd (fst r)) = _replay_buffer s /\
    ray_actors (snd r) = ray_actors w /\
    stored (snd r) = stored w /\
    (forall k, dict_get k (_work_ids s) <> None ->
               dict_get k (_work_ids (snd (fst r))) <> None).
Proof.
  induction workers as [|x rest IH]; intros s w; cbn.
  - auto.
  - destruct (dict_get x (_work_ids s)) as [[oid|]|] eqn:Hx; cbn.
    + apply IH.
    + match goal with |- context [start_loop rest g mf me ?s1 ?w1] =>
        destruct (IH s1 w1) as (H1 & H2 & H3 & H4 & H5) end.
      cbn in *. repeat split; auto.
      intros k Hk. apply H5. rewrite dict_get_set.
      destruct (Nat.eqb x k); congruence.
    + auto.
Qed.

(** With every key in place the loop ends without raising. *)
Lemma start_loop_ok workers g mf me :
  forall (s : sampler) (w : world),
    (forall k, In k workers -> dict_get k (_work_ids s) <> None) ->
    fst (fst (start_loop workers g mf me s w)) = Ok PyNone.
Proof.
  induction workers as [|x rest IH]; intros s w Hkeys; cbn.
  - reflexivity.
  - destruct (dict_get x (_work_ids s)) as [[oid|]|] eqn:Hx; cbn.
    + apply IH. intros k Hk. apply Hkeys. now right.
    + apply IH. intros k Hk. cbn. rewrite dict_get_set.
      destruct (Nat.eqb x k); [congruence|]. apply Hkeys. now right.
    + exfalso. apply (Hkeys x); [now left|assumption].
Qed.

(** The loop keeps [one_job]. *)
Lemma start_loop_one_job workers g mf me :
  forall (s : sampler) (w : world),
    incl workers (_workers s) ->
    one_job s w ->
    let r := start_loop workers g mf me s w in
    one_job (snd (fst r)) (snd r).
Proof.
  induction workers as [|x rest IH]; intros s w Hincl Hinv; cbn.
  - assumption.
  - assert (Hrest : incl rest (_workers s)).
    { intros k Hk. apply Hincl. now right. }
    destruct (dict_get x (_work_ids s)) as [[oid|]|] eqn:Hx; cbn.
    + now apply IH.
    + apply IH; [exact Hrest|].
      intros worker Hin. cbn in Hin. specialize (Hinv worker Hin).
      unfold busy in *. cbn [_work_ids]. unfold jobs_of in *. cbn [ray_jobs].
      rewrite List.filter_app, length_app, dict_get_set. cbn.
      destruct (Nat.eqb x worker) eqn:Hk.
      * apply Nat.eqb_eq in Hk. subst x. rewrite Hx in Hinv. cbn. lia.
      * cbn. lia.
    + assumption.
Qed.

(** An idle unit in the list gets exactly one job, with the agent and the
    budgets of the call. *)
Lemma start_loop_dispatch workers g mf me :
  forall (s : sampler) (w : world) worker,
    (forall k, In k workers -> dict_get k (_work_ids s) <> None) ->
    In worker workers ->
    idle worker s = true ->
    jobs_of worker w = [] ->
    let r := start_loop workers g mf me s w in
    exists oid,
      jobs_of worker (snd r) = [mkJob oid worker g mf me] /\
      dict_get worker (_work_ids (snd (fst r))) = Some (Some oid).
Proof.
  induction workers as [|x rest IH]; intros s w worker Hkeys Hin Hidle Hjobs; cbn.
  - destruct Hin.
  - assert (Hrest : forall s1 : sampler,
               (forall k, dict_get k (_work_ids s) <> None ->
                          dict_get k (_work_ids s1) <> None) ->
               forall k, In k rest -> dict_get k (_work_ids s1) <> None).
    { intros s1 Hs1 k Hk. apply Hs1, Hkeys. now right. }
    destruct (dict_get x (_work_ids s)) as [[oid|]|] eqn:Hx; cbn.
    + destruct Hin as [->|Hin].
      * unfold idle in Hidle. now rewrite Hx in Hidle.
      * apply IH; auto.
    + destruct (Nat.eq_dec x worker) as [->|Hne].
      * match goal with |- context [start_loop rest g mf me ?s1 ?w1] =>
          destruct (start_loop_busy rest g mf me s1 w1 worker) as [H1 H2] end.
        { unfold idle. cbn. now rewrite dict_get_set_eq. }
        cbn in H1, H2. exists (length (ray_jobs w)). rewrite H1, H2. split.
        -- try (unfold jobs_of at 1; cbn [ray_jobs]). rewrite jobs_of_app. cbn.
           rewrite Nat.eqb_refl, Hjobs. reflexivity.
        -- apply dict_get_set_eq.
      * destruct Hin as [Heq|Hin]; [contradiction|].
        apply IH; auto.
        -- apply Hrest. intros k Hk. cbn. rewrite dict_get_set.
           destruct (Nat.eqb x k); congruence.
        -- unfold idle in *. cbn. now rewrite dict_get_set_ne.
        -- try (unfold jobs_of at 1; cbn [ray_jobs]). rewrite jobs_of_app. cbn.
           apply Nat.eqb_neq in Hne. rewrite Hne, Hjobs. reflexivity.
    + exfalso. apply (Hkeys x); [now left|assumption].
Qed.

(** *** Construction *)

Lemma make_workers_spec seed count :
  forall i (w : world),
    let r := make_workers seed i count w in
    fst r = seq (length (ray_actors w)) count /\
    ray_jobs (snd r) = ray_jobs w /\
    _REPLAY_BUFFER (snd r) = _REPLAY_BUFFER w /\
    stored (snd r) = stored w.
Proof.
  induction count as [|count IH]; intros i w; cbn.
  - auto.
  - match goal with |- context [make_workers seed (S i) count ?w1] =>
      specialize (IH (S i) w1); destruct (make_workers seed (S i) count w1)
        as [hs w2] end.
    cbn in *. destruct IH as (H1 & H2 & H3 & H4).
    rewrite length_app in H1. cbn in H1.
    replace (length (ray_actors w) + 1) with (S (length (ray_actors w))) in H1 by lia.
    repeat split; auto. now rewrite H1.
Qed.

Lemma fresh_keys workers :
  forall (d : list (Ray.ActorHandle * option Ray.ObjectID)) k,
    dict_get k (fold_left (fun d worker => dict_set worker None d) workers d)
    = if existsb (Nat.eqb k) workers then Some None else dict_get k d.
Proof.
  induction workers as [|x rest IH]; intros d k; cbn.
  - reflexivity.
  - rewrite IH, dict_get_set. rewrite (Nat.eqb_sym k x).
    destruct (existsb (Nat.eqb k) rest), (Nat.eqb x k); reflexivity.
Qed.

Lemma init_spec (env : Env) num_workers seed (w : world) rb :
  _REPLAY_BUFFER w = Some rb ->
  exists s0 w1,
    __init__ env num_workers seed w = (Ok s0, w1) /\
    _workers s0 = seq (length (ray_actors w)) (Z.to_nat num_workers) /\
    _replay_buffer s0 = rb /\
    (forall k, In k (_workers s0) -> dict_get k (_work_ids s0) = Some None) /\
    ray_jobs w1 = ray_jobs w.
Proof.
  intros Hrb. unfold __init__.
  pose proof (make_workers_spec seed (Z.to_nat num_workers) 0 w) as Hmk.
  destruct (make_workers seed 0 (Z.to_nat num_workers) w) as [workers w1].
  cbn in Hmk. destruct Hmk as (H1 & H2 & H3 & H4).
  unfold get_replay_buffer. rewrite H3, Hrb.
  eexists _, w1. split; [reflexivity|]. cbn. repeat split; auto.
  intros k Hk. rewrite fresh_keys.
  replace (existsb (Nat.eqb k) workers) with true; [reflexivity|].
  symmetry. apply existsb_exists. exists k. split; [assumption|].
  apply Nat.eqb_refl.
Qed.

Lemma init_one_job (env : Env) num_workers seed (w : world) s0 w1 :
  world_ok w = true ->
  __init__ env num_workers seed w = (Ok s0, w1) ->
  one_job s0 w1 /\ keys_ok s0.
Proof.
  intros Hok Hinit.
  destruct (_REPLAY_BUFFER w) as [rb|] eqn:Hrb.
  - destruct (init_spec env num_workers seed w rb Hrb)
      as (s & w' & Hi & Hw & _ & Hkeys & Hjobs).
    rewrite Hinit in Hi. injection Hi as <- <-. split.
    + intros worker Hin. rewrite Hw in Hin. apply in_seq in Hin.
      assert (Hnil : jobs_of worker w1 = []).
      { unfold jobs_of. rewrite Hjobs. unfold world_ok in Hok.
        rewrite forallb_forall in Hok.
        destruct (List.filter _ (ray_jobs w)) as [|j l] eqn:Hf; [reflexivity|].
        assert (Hj : In j (List.filter
                  (fun j0 : job Agent => Nat.eqb (job_worker j0) worker)
                  (ray_jobs w))) by (rewrite Hf; now left).
        apply List.filter_In in Hj as [Hj Heq].
        apply Hok in Hj. apply Nat.ltb_lt in Hj. apply Nat.eqb_eq in Heq. lia. }
      rewrite Hnil. cbn. lia.
    + intros worker Hin. rewrite (Hkeys worker Hin). discriminate.
  - unfold __init__ in Hinit.
    pose proof (make_workers_spec seed (Z.to_nat num_workers) 0 w) as Hmk.
    destruct (make_workers seed 0 (Z.to_nat num_workers) w) as [workers w2].
    cbn in Hmk. destruct Hmk as (_ & _ & H3 & _).
    unfold get_replay_buffer in Hinit. rewrite H3, Hrb in Hinit. discriminate.
Qed.

(** *** What every call keeps *)

Lemma do_call_keeps (sw : sampler * world) (c : call Agent Batch) :
  _workers (fst (do_call sw c)) = _workers (fst sw) /\
  _replay_buffer (fst (do_call sw c)) = _replay_buffer (fst sw) /\
  (keys_ok (fst sw) -> keys_ok (fst (do_call sw c))) /\
  (one_job (fst sw) (snd sw) -> one_job (fst (do_call sw c)) (snd (do_call sw c))).
Proof.
  destruct sw as [s w]. destruct c as [g mf me|completes fetch|rb]; cbn.
  - unfold start_sampling.
    destruct (negb (negb (is_inf mf) || negb (is_inf me))); cbn; [auto|].
    pose proof (start_loop_frame (_workers s) g mf me s w) as Hfr.
    pose proof (start_loop_one_job (_workers s) g mf me s w (incl_refl _)) as Hone.
    destruct (start_loop (_workers s) g mf me s w) as [[r s'] w'].
    cbn in *. destruct Hfr as (H1 & H2 & _ & _ & H5).
    repeat split; auto.
    intros Hk worker Hin. rewrite H1 in Hin. apply H5, Hk, Hin.
  - unfold store_samples.
    pose proof (store_loop_frame (_work_ids s) completes fetch s w) as Hfr.
    destruct (store_loop (_work_ids s) completes fetch s w) as [[r s'] w'].
    cbn in *. destruct Hfr as (-> & Hjobs & _). repeat split; auto.
    intros Hone worker Hin. specialize (Hone worker Hin).
    unfold jobs_of in *. now rewrite Hjobs.
  - repeat split; auto.
Qed.

Lemma run_keeps (calls : list (call Agent Batch)) :
  forall sw : sampler * world,
    _workers (fst (run calls sw)) = _workers (fst sw) /\
    _replay_buffer (fst (run calls sw)) = _replay_buffer (fst sw) /\
    (keys_ok (fst sw) -> keys_ok (fst (run calls sw))) /\
    (one_job (fst sw) (snd sw) -> one_job (fst (run calls sw)) (snd (run calls sw))).
Proof.
  induction calls as [|c rest IH]; intros sw; cbn.
  - auto.
  - destruct (IH (do_call sw c)) as (H1 & H2 & H3 & H4).
    destruct (do_call_keeps sw c) as (K1 & K2 & K3 & K4).
    unfold run in *. rewrite H1, H2, K1, K2. repeat split; auto.
Qed.

Lemma set_replay_buffer_get (w : world) rb :
  _REPLAY_BUFFER (set_replay_buffer (Some rb) w) = Some rb.
Proof. reflexivity. Qed.

(** C6: on a sampler that was constructed, after any calls,
    [start_sampling] raises exactly when both budgets are infinite: then it
    raises the assertion error at once, nothing dispatched and nothing
    changed; with a finite budget it returns normally. *)
Theorem start_sampling_raises_iff_no_budget :
  forall (env : Env) num_workers seed rb (w0 : world) calls g max_frames max_episodes,
    exists s0 w1,
      __init__ env num_workers seed (set_replay_buffer (Some rb) w0) = (Ok s0, w1) /\
      let s := fst (run calls (s0, w1)) in
      let w := snd (run calls (s0, w1)) in
      match max_frames, max_episodes with
      | Infinite, Infinite =>
          start_sampling s g max_frames max_episodes w =
          (Raise (AssertionError "max_frames or max_episodes must be specified"), s, w)
      | _, _ => fst (fst (start_sampling s g max_frames max_episodes w)) = Ok PyNone
      end.
Proof.
  intros env num_workers seed rb w0 calls g mf me.
  destruct (init_spec env num_workers seed _ rb (set_replay_buffer_get w0 rb))
    as (s0 & w1 & Hinit & _ & _ & Hkeys & _).
  exists s0, w1. split; [exact Hinit|]. cbn zeta.
  assert (Hk : keys_ok (fst (run calls (s0, w1)))).
  { apply run_keeps. intros worker Hin. cbn in *.
    rewrite (Hkeys worker Hin). discriminate. }
  destruct mf as [n|], me as [m|]; cbn; try reflexivity;
    unfold start_sampling; cbn; apply start_loop_ok; exact Hk.
Qed.

(** C7: on a sampler constructed in a process whose jobs belong to
    existing actors, after any calls, Ray holds at most one job for each of
    the sampler's workers; and [start_sampling] passes over a unit that is
    not idle, leaving its entry and its jobs as they are, and gives an idle
    unit exactly one job when a budget is finite. *)
Theorem start_sampling_one_job_per_unit :
  forall (env : Env) num_workers seed rb (w0 : world) calls,
    world_ok w0 = true ->
    exists s0 w1,
      __init__ env num_workers seed (set_replay_buffer (Some rb) w0) = (Ok s0, w1) /\
      let s := fst (run calls (s0, w1)) in
      let w := snd (run calls (s0, w1)) in
      forall worker, In worker (_workers s) ->
        length (jobs_of worker w) <= 1 /\
        forall g max_frames max_episodes,
          let r := start_sampling s g max_frames max_episodes w in
          if idle worker s then
            if is_inf max_frames && is_inf max_episodes
            then jobs_of worker (snd r) = []
            else exists oid,
                jobs_of worker (snd r) = [mkJob oid worker g max_frames max_episodes] /\
                dict_get worker (_work_ids (snd (fst r))) = Some (Some oid)
          else
            dict_get worker (_work_ids (snd (fst r))) = dict_get worker (_work_ids s) /\
            jobs_of worker (snd r) = jobs_of worker w.
Proof.
  intros env num_workers seed rb w0 calls Hok.
  destruct (init_spec env num_workers seed _ rb (set_replay_buffer_get w0 rb))
    as (s0 & w1 & Hinit & _ & _ & _ & _).
  exists s0, w1. split; [exact Hinit|]. cbn zeta.
  destruct (init_one_job env num_workers seed (set_replay_buffer (Some rb) w0)
              s0 w1 Hok Hinit) as [Hone0 Hkeys0].
  destruct (run_keeps calls (s0, w1)) as (_ & _ & Hk & Ho).
  specialize (Hk Hkeys0). specialize (Ho Hone0).
  set (s := fst (run calls (s0, w1))) in *.
  set (w := snd (run calls (s0, w1))) in *.
  intros worker Hin. pose proof (Ho worker Hin) as Hle. split.
  - destruct (busy worker s); lia.
  - intros g mf me. cbn zeta. destruct (idle worker s) eqn:Hidle.
    + assert (Hnil : jobs_of worker w = []).
      { unfold idle, busy in *.
        destruct (dict_get worker (_work_ids s)) as [[oid|]|]; try discriminate.
        destruct (jobs_of worker w); [reflexivity|cbn in Hle; lia]. }
      unfold start_sampling.
      destruct mf as [n|], me as [m|]; cbn; try exact Hnil;
        apply start_loop_dispatch; auto.
    + unfold start_sampling.
      destruct (negb (negb (is_inf mf) || negb (is_inf me))); cbn; [auto|].
      now apply start_loop_busy.
Qed.

(** C10: constructing the sampler while no replay buffer is registered
    raises [ValueError("replay_buffer is not set")]; with a buffer
    registered the sampler holds that buffer, and holds it still after any
    calls, whatever is registered later. *)
Theorem init_binds_replay_buffer :
  forall (env : Env) num_workers seed (w0 : world),
    fst (__init__ env num_workers seed (set_replay_buffer None w0))
    = Raise (ValueError "replay_buffer is not set") /\
    forall rb, exists s0 w1,
      __init__ env num_workers seed (set_replay_buffer (Some rb) w0) = (Ok s0, w1) /\
      _replay_buffer s0 = rb /\
      forall calls, _replay_buffer (fst (run calls (s0, w1))) = rb.
Proof.
  intros env num_workers seed w0. split.
  - unfold __init__.
    pose proof (make_workers_spec seed (Z.to_nat num_workers) 0
                  (set_replay_buffer None w0)) as Hmk.
    destruct (make_workers seed 0 (Z.to_nat num_workers) _) as [workers w1].
    cbn in Hmk. destruct Hmk as (_ & _ & H3 & _).
    unfold get_replay_buffer. now rewrite H3.
  - intros rb.
    destruct (init_spec env num_workers seed _ rb (set_replay_buffer_get w0 rb))
      as (s0 & w1 & Hinit & _ & Hrb & _ & _).
    exists s0, w1. repeat split; auto.
    intros calls. destruct (run_keeps calls (s0, w1)) as (_ & H2 & _).
    now rewrite H2.
Qed.

End SamplerFacts.

(** *** The sampler on small runs

    One process, the replay buffer object 0 registered, environments and
    agents without content, and a job's batch named by the job. *)

Lemma start_sampling_one_job_per_unit_witness :
  @world_ok unit nat (fresh_world None) = true /\
  exists s0 w1,
    @__init__ unit unit nat tt 3 0
      (set_replay_buffer (Some 0) (fresh_world None)) = (Ok s0, w1) /\
    let calls := [CallStart tt Infinite (Finite 6);
                  CallStore (fun _ => true) (fun oid => oid)] in
    let s := fst (run calls (s0, w1)) in
    let w := snd (run calls (s0, w1)) in
    forall worker, In worker (_workers s) ->
      length (jobs_of worker w) <= 1 /\
      forall g max_frames max_episodes,
        let r := start_sampling s g max_frames max_episodes w in
        if idle worker s then
          if is_inf max_frames && is_inf max_episodes
          then jobs_of worker (snd r) = []
          else exists oid,
              jobs_of worker (snd r) = [mkJob oid worker g max_frames max_episodes] /\
              dict_get worker (_work_ids (snd (fst r))) = Some (Some oid)
        else
          dict_get worker (_work_ids (snd (fst r))) = dict_get worker (_work_ids s) /\
          jobs_of worker (snd r) = jobs_of worker w.
Proof.
  split; [reflexivity|].
  apply (@start_sampling_one_job_per_unit unit unit nat tt 3 0 0 (fresh_world None)
           [CallStart tt Infinite (Finite 6);
            CallStore (fun _ => true) (fun oid => oid)]).
  reflexivity.
Defined.

(** C1: what [store_samples] returns is never a record of counters: when it
    returns, it returns [None].  In the run of [test_sampler_episode], three
    workers with six episodes each and every job complete, the three batches
    are stored and the value returned is [None], on which the subscript
    ["episodes"] that the test takes raises. *)
Theorem store_samples_returns_none :
  (forall (Env Agent Batch : Type) (s : sampler Env) completes fetch
          (w : world Agent Batch),
      match fst (fst (store_samples s completes fetch w)) with
      | Ok v => v = PyNone
      | Raise _ => True
      end) /\
  exists s0 w0 s1 w1 s2 w2,
    @__init__ unit unit nat tt 3 0 (fresh_world (Some 0)) = (Ok s0, w0) /\
    start_sampling s0 tt Infinite (Finite 6) w0 = (Ok PyNone, s1, w1) /\
    store_samples s1 (fun _ => true) (fun oid => oid) w1 = (Ok PyNone, s2, w2) /\
    batches_of 0 w2 = [0; 1; 2] /\
    subscript PyNone "episodes"
    = Raise (TypeError "'NoneType' object is not subscriptable").
Proof.
  split.
  - intros Env Agent Batch s completes fetch w. unfold store_samples.
    apply (store_loop_frame (_work_ids s) completes fetch s w).
  - eexists _, _, _, _, _, _.
    repeat (split; [vm_compute; reflexivity|]). reflexivity.
Qed.

(** C2: [store_samples] leaves the sampler object as it found it, whatever
    completed.  With one worker and one job, complete when [store_samples]
    looks: the batch reaches the replay buffer, but the unit is still
    recorded as busy with that job, the next [start_sampling] dispatches
    nothing, and the next [store_samples] stores the same batch a second
    time. *)
Theorem store_samples_leaves_unit_busy :
  (forall (Env Agent Batch : Type) (s : sampler Env) completes fetch
          (w : world Agent Batch),
      snd (fst (store_samples s completes fetch w)) = s) /\
  exists s0 w0 s1 w1 s2 w2 s3 w3 s4 w4,
    @__init__ unit unit nat tt 1 0 (fresh_world (Some 0)) = (Ok s0, w0) /\
    start_sampling s0 tt Infinite (Finite 1) w0 = (Ok PyNone, s1, w1) /\
    ray_jobs w1 = [mkJob 0 0 tt Infinite (Finite 1)] /\
    store_samples s1 (fun _ => true) (fun oid => oid) w1 = (Ok PyNone, s2, w2) /\
    batches_of 0 w2 = [0] /\
    _work_ids s2 = [(0, Some 0)] /\
    idle 0 s2 = false /\
    start_sampling s2 tt Infinite (Finite 1) w2 = (Ok PyNone, s3, w3) /\
    ray_jobs w3 = ray_jobs w1 /\
    store_samples s3 (fun _ => true) (fun oid => oid) w3 = (Ok PyNone, s4, w4) /\
    batches_of 0 w4 = [0; 0].
Proof.
  split.
  - intros Env Agent Batch s completes fetch w. unfold store_samples.
    apply (store_loop_frame (_work_ids s) completes fetch s w).
  - eexists _, _, _, _, _, _, _, _, _, _.
    repeat (split; [vm_compute; reflexivity|]). reflexivity.
Qed.

(** C9: a sampler with one worker, [store_samples] called before any
    [start_sampling]: the unit has no job, [ray.wait] is called on [None]
    all the same, and the call raises. *)
Theorem store_samples_before_start_raises :
  exists s0 w0,
    @__init__ unit unit nat tt 1 0 (fresh_world (Some 0)) = (Ok s0, w0) /\
    _work_ids s0 = [(0, None)] /\
    store_samples s0 (fun _ => true) (fun oid => oid) w0
    = (Raise (TypeError "wait() expected a list of ray.ObjectID, got list containing <class 'NoneType'>"),
       s0, w0).
Proof.
  eexists _, _.
  repeat (split; [vm_compute; reflexivity|]). reflexivity.
Qed.

(** ** The n-step buffer *)

Section NStepFacts.

Import Memory.

Local Open Scope Q_scope.

Lemma flushed_by_app {B : Type} `{ReplayBuffer B} (l1 l2 : list transition) :
  forall b : NStepReplayBuffer B,
    flushed_by b (l1 ++ l2) = flushed_by b l1 ++ flushed_by (store_all l1 b) l2.
Proof.
  induction l1 as [|t l1 IH]; intros b; cbn.
  - reflexivity.
  - rewrite IH, app_assoc. reflexivity.
Qed.

Lemma ramp_app (n k : nat) :
  ramp (n + k) = ramp n ++ List.map ramp_transition (seq n k).
Proof. unfold ramp. now rewrite seq_app, List.map_app. Qed.

(** The first five stores: the fourth and the fifth flush one window each. *)
Lemma ramp_five :
  flushed_by test_buffer (ramp 5)
  = [synthesize (1 # 2) (ramp_transition 0)
       [ramp_transition 1; ramp_transition 2; ramp_transition 3];
     synthesize (1 # 2) (ramp_transition 1)
       [ramp_transition 2; ramp_transition 3; ramp_transition 4]].
Proof. vm_compute. reflexivity. Qed.

(** C4, as the buffer has it: with N = 4 and discount 1/2, storing the
    transitions with rewards 0, 1, 2, ... (five or more of them), the first
    transition flushed carries the reward 0 + 1/2 + 2/4 + 3/8 = 11/8, the
    state and action of transition 0 and the next state of transition 3; the
    second carries 1 + 2/2 + 3/4 + 4/8 = 13/4, the state and action of
    transition 1 and the next state of transition 4.  After the six stores
    of the test they are slots 0 and 1 of the inner buffer. *)
Theorem nstep_first_flushes :
  forall k : nat,
    exists t1 t2 rest,
      flushed_by test_buffer (ramp (5 + k)) = t1 :: t2 :: rest /\
      reward t1 == 11 # 8 /\
      state t1 = state (ramp_transition 0) /\
      action t1 = action (ramp_transition 0) /\
      next_state t1 = next_state (ramp_transition 3) /\
      reward t2 == 13 # 4 /\
      state t2 = state (ramp_transition 1) /\
      action t2 = action (ramp_transition 1) /\
      next_state t2 = next_state (ramp_transition 4) /\
      take 2 (buffer (inner (store_all (ramp 6) test_buffer))) = [t1; t2].
Proof.
  intros k. rewrite ramp_app, flushed_by_app, ramp_five. cbn [app].
  eexists _, _, _. split; [reflexivity|].
  repeat split; vm_compute; reflexivity.
Qed.

(** C4, as the claim has it: the two rewards are not 0.875 and 2.75. *)
Lemma nstep_first_rewards_differ :
  exists t1 t2 rest,
    flushed_by test_buffer (ramp 6) = t1 :: t2 :: rest /\
    ~ reward t1 == 7 # 8 /\
    ~ reward t2 == 11 # 4.
Proof.
  eexists _, _, _. split; [vm_compute; reflexivity|].
  split; intros Heq; vm_compute in Heq; discriminate.
Qed.

Lemma experience_store_all (l : list transition) :
  forall b : ExperienceReplayBuffer,
    (length (buffer b) + length l <= capacity b)%nat ->
    length (buffer (fold_left (fun i x => experience_store x i) l b))
    = (length (buffer b) + length l)%nat.
Proof.
  induction l as [|t l IH]; intros b Hroom; cbn in *.
  - lia.
  - unfold experience_store at 2.
    destruct (Nat.ltb_spec (length (buffer b)) (capacity b)); [|lia].
    rewrite IH; cbn; rewrite length_app; cbn; lia.
Qed.

Lemma partial_windows_length gamma (w : list transition) :
  length (partial_windows gamma w) = length w.
Proof. induction w; cbn; auto. Qed.

(** C5, as the buffer has it: the inner buffer grows by one for each
    transition flushed, while it has room; and a terminal transition flushes
    every pending window, one flush for each transition of the window it
    completes - the first over the whole truncated window, ending in the
    terminal next state - and leaves the window empty. *)
Theorem nstep_terminal_flushes_all :
  forall (b : NStepReplayBuffer ExperienceReplayBuffer) (t : transition),
    ((len (inner b) + length (fst (flush b t)) <= capacity (inner b))%nat ->
     len (nstep_store t b) = (len b + length (fst (flush b t)))%nat) /\
    (mask (next_state t) = false ->
     fst (flush b t) = partial_windows (discount_factor b) (window b ++ [t]) /\
     length (fst (flush b t)) = S (length (window b)) /\
     window (nstep_store t b) = [] /\
     exists first rest tail,
       window b ++ [t] = first :: rest /\
       fst (flush b t) = synthesize (discount_factor b) first rest :: tail /\
       next_state (synthesize (discount_factor b) first rest) = next_state t).
Proof.
  intros b t. split.
  - intros Hroom. unfold nstep_store. cbn [len nstep_buffer].
    destruct (flush b t) as [flushed w]. cbn in *.
    now apply experience_store_all.
  - intros Hmask. unfold nstep_store, flush. rewrite Hmask. cbn.
    rewrite partial_windows_length, length_app. cbn.
    repeat split; try lia.
    destruct (window b) as [|first rest] eqn:Hw; cbn.
    + exists t, [], []. auto.
    + exists first, (rest ++ [t]), (partial_windows (discount_factor b) (rest ++ [t])).
      repeat split. unfold synthesize. cbn [next_state].
      now rewrite last_last.
Qed.

(** The run of [test_done]: a terminal transition, two that are not, and
    another terminal one. *)
Lemma nstep_terminal_flushes_all_witness :
  let b := store_all [done_transition; live_transition; live_transition]
             test_buffer in
  let t := done_transition in
  (len (inner b) + length (fst (flush b t)) <= capacity (inner b))%nat /\
  mask (next_state t) = false /\
  len (nstep_store t b) = (len b + length (fst (flush b t)))%nat /\
  fst (flush b t) = partial_windows (discount_factor b) (window b ++ [t]) /\
  length (fst (flush b t)) = S (length (window b)) /\
  window (nstep_store t b) = [] /\
  exists first rest tail,
    window b ++ [t] = first :: rest /\
    fst (flush b t) = synthesize (discount_factor b) first rest :: tail /\
    next_state (synthesize (discount_factor b) first rest) = next_state t.
Proof.
  intros b t.
  assert (Hroom : (len (inner b) + length (fst (flush b t)) <= capacity (inner b))%nat)
    by (vm_compute; lia).
  assert (Hmask : mask (next_state t) = false) by reflexivity.
  destruct (nstep_terminal_flushes_all b t) as [Hlen Hterm].
  split; [exact Hroom|]. split; [exact Hmask|].
  split; [exact (Hlen Hroom)|]. exact (Hterm Hmask).
Defined.

(** C5, as the claim has it: in [test_done] the last terminal transition
    arrives on a window of two, short of N = 4, and three transitions are
    flushed, not one; the inner buffer goes from one transition to four. *)
Lemma nstep_terminal_flushes_three :
  let b := store_all [done_transition; live_transition; live_transition]
             test_buffer in
  steps b = 4%nat /\
  length (window b) = 2%nat /\
  mask (next_state done_transition) = false /\
  length (fst (flush b done_transition)) = 3%nat /\
  len b = 1%nat /\
  len (nstep_store done_transition b) = 4%nat /\
  List.map (fun x => Qred (reward x)) (fst (flush b done_transition))
  = [7 # 4; 3 # 2; 1].
Proof. vm_compute. repeat split; reflexivity. Qed.

End NStepFacts.

(** ** The prioritized buffer *)

Section QFacts.

Local Open Scope Q_scope.

Lemma Qlist_max_upper (rest : list Q) :
  forall first,
    first <= Memory.Qlist_max first rest /\
    forall x, In x rest -> x <= Memory.Qlist_max first rest.
Proof.
  unfold Memory.Qlist_max.
  induction rest as [|y rest IH]; intros first; cbn.
  - split; [apply Qle_refl|]. intros x [].
  - destruct (IH (if Qle_bool first y then y else first)) as [Hm Hrest].
    destruct (Qle_bool first y) eqn:Hb.
    + apply Qle_bool_iff in Hb. split.
      * eapply Qle_trans; eauto.
      * intros x [<-|Hx]; auto.
    + assert (Hlt : y < first).
      { apply Qnot_le_lt. intros Hle. apply Qle_bool_iff in Hle. congruence. }
      split; [assumption|].
      intros x [<-|Hx]; auto.
      eapply Qle_trans; [apply Qlt_le_weak, Hlt|assumption].
Qed.

Lemma Qlist_max_member (rest : list Q) :
  forall first, In (Memory.Qlist_max first rest) (first :: rest).
Proof.
  unfold Memory.Qlist_max.
  induction rest as [|y rest IH]; intros first; cbn.
  - now left.
  - destruct (IH (if Qle_bool first y then y else first)) as [Heq|Hin].
    + rewrite <- Heq. destruct (Qle_bool first y); auto.
    + auto.
Qed.

Lemma Qsum_positive (l : list Q) :
  l <> [] -> Forall (fun x => 0 < x) l -> 0 < Memory.Qsum l.
Proof.
  intros Hne Hall. induction Hall as [|x l Hx Hall IH]; [congruence|].
  cbn. destruct l as [|y l].
  - cbn. now rewrite Qplus_0_r.
  - apply Qlt_le_trans with (x + 0).
    + now rewrite Qplus_0_r.
    + apply Qplus_le_r, Qlt_le_weak, IH. discriminate.
Qed.

End QFacts.

Section PrioritizedFacts.

Import Memory.

Local Open Scope Q_scope.

Variable power : Q -> Q -> Q.
Hypothesis power_pos : forall x y, 0 < x -> 0 < power x y.

Lemma raw_weight_positive (b : PrioritizedReplayBuffer) beta i :
  Forall (fun p => 0 < p) (priorities b) ->
  (i < length (priorities b))%nat ->
  0 < raw_weight power b beta i.
Proof.
  intros Hpos Hi. unfold raw_weight. apply power_pos.
  assert (Hscaled : Forall (fun x => 0 < x) (scaled power b)).
  { unfold scaled. apply List.Forall_map.
    eapply List.Forall_impl; [|exact Hpos]. intros p Hp. cbn. now apply power_pos. }
  assert (Hlen : length (scaled power b) = length (priorities b))
    by (unfold scaled; apply length_map).
  assert (Hsum : 0 < Qsum (scaled power b)).
  { apply Qsum_positive; [|assumption].
    intros Hnil. rewrite Hnil in Hlen. cbn in Hlen. lia. }
  assert (Hnth : 0 < nth i (scaled power b) 0).
  { rewrite List.Forall_forall in Hscaled. apply Hscaled, nth_In. lia. }
  assert (Hprob : 0 < probability power b i).
  { unfold probability. apply Qlt_shift_div_l; [assumption|].
    now rewrite Qmult_0_l. }
  assert (Hn : 0 < inject_Z (Z.of_nat (length (priorities b)))).
  { change 0 with (inject_Z 0). rewrite <- Zlt_Qlt. lia. }
  unfold Qdiv. rewrite Qmult_1_l.
  apply Qinv_lt_0_compat. now apply Qmult_lt_0_compat.
Qed.

(** The largest weight is the weight of a stored slot, and no stored slot
    weighs more. *)
Lemma max_weight_spec (b : PrioritizedReplayBuffer) beta :
  (0 < length (priorities b))%nat ->
  (exists j, (j < length (priorities b))%nat /\
             max_weight power b beta = raw_weight power b beta j) /\
  forall i, (i < length (priorities b))%nat ->
            raw_weight power b beta i <= max_weight power b beta.
Proof.
  intros Hn. unfold max_weight.
  assert (Hin : forall x,
             In x (List.map (raw_weight power b beta) (seq 0 (length (priorities b)))) <->
             exists j, (j < length (priorities b))%nat /\ x = raw_weight power b beta j).
  { intros x. rewrite List.in_map_iff. split.
    - intros (j & <- & Hj). apply in_seq in Hj. exists j. split; [lia|reflexivity].
    - intros (j & Hj & ->). exists j. split; [reflexivity|]. apply in_seq. lia. }
  destruct (List.map (raw_weight power b beta) (seq 0 (length (priorities b))))
    as [|x rest] eqn:Hl.
  - apply (f_equal (@length Q)) in Hl. rewrite length_map, length_seq in Hl.
    cbn in Hl. lia.
  - destruct (Qlist_max_upper rest x) as [Hx Hrest]. split.
    + apply Hin, Qlist_max_member.
    + intros i Hi.
      assert (Hi' : In (raw_weight power b beta i) (x :: rest))
        by (apply Hin; eauto).
      destruct Hi' as [<-|Hi']; auto.
Qed.

(** C8, as the buffer has it: every weight that [sample] returns is at
    most 1, and the weight of a drawn slot is 1 exactly when no stored slot
    has a larger weight before normalization - so the largest weight of a
    batch is 1 only if the batch holds such a slot. *)
Theorem sample_weights_at_most_one :
  forall (b : PrioritizedReplayBuffer) beta drawn batch weights b',
    Forall (fun p => 0 < p) (priorities b) ->
    length (priorities b) = length (p_buffer b) ->
    sample power b beta drawn = Ok (batch, weights, b') ->
    weights = List.map (weight power b beta) drawn /\
    Forall (fun x => x <= 1) weights /\
    forall i, In i drawn ->
      (weight power b beta i == 1 <->
       raw_weight power b beta i == max_weight power b beta).
Proof.
  intros b beta drawn batch weights b' Hpos Hlen Hsample.
  unfold sample in Hsample.
  destruct (Nat.eqb_spec (length (p_buffer b)) 0) as [|Hne]; [discriminate|].
  destruct (mapM (fun i => p_buffer b !! i) drawn) as [found|] eqn:Hfound;
    [|discriminate].
  injection Hsample as <- <- <-.
  assert (Hvalid : forall i, In i drawn -> (i < length (priorities b))%nat).
  { intros i Hi. apply mapM_Some in Hfound.
    apply list_elem_of_In, list_elem_of_lookup_1 in Hi as [n Hn].
    destruct (Forall2_lookup_l _ _ _ _ _ Hfound Hn) as (y & _ & Hy).
    apply lookup_lt_Some in Hy. lia. }
  destruct (max_weight_spec b beta) as [(j & Hj & Hmax) Hupper]; [lia|].
  assert (Hmpos : 0 < max_weight power b beta).
  { rewrite Hmax. now apply raw_weight_positive. }
  split; [reflexivity|]. split.
  - apply List.Forall_map, List.Forall_forall. intros i Hi. unfold weight.
    apply Qle_shift_div_r; [assumption|]. rewrite Qmult_1_l.
    apply Hupper, Hvalid, Hi.
  - intros i Hi. unfold weight.
    assert (Hm0 : ~ max_weight power b beta == 0).
    { intros H0. rewrite H0 in Hmpos. now apply Qlt_irrefl in Hmpos. }
    split; intros Heq.
    + rewrite <- (Qmult_div_r (raw_weight power b beta i) _ Hm0), Heq.
      apply Qmult_1_r.
    + rewrite Heq. unfold Qdiv. now apply Qmult_inv_r.
Qed.

End PrioritizedFacts.

(** Powers with an integer exponent keep positive numbers positive. *)
Lemma integer_power_pos (x y : Q) : (0 < x -> 0 < Memory.integer_power x y)%Q.
Proof. intros Hx. unfold Memory.integer_power. now apply Qpower_0_lt. Qed.

(** A buffer of two transitions with priorities 1 and 2, exponents 1, and
    three draws of the slot of priority 2. *)
Lemma sample_weights_at_most_one_witness :
  let b := Memory.mkPrioritizedReplayBuffer 5 1
             [Memory.live_transition; Memory.done_transition]
             [1; 2]%Q 2%nat [] in
  Forall (fun p => 0 < p)%Q (Memory.priorities b) /\
  length (Memory.priorities b) = length (Memory.p_buffer b) /\
  exists batch weights b',
    Memory.sample Memory.integer_power b 1 [1; 1; 1]%nat = Ok (batch, weights, b') /\
    weights = List.map (Memory.weight Memory.integer_power b 1) [1; 1; 1]%nat /\
    Forall (fun x => x <= 1)%Q weights /\
    forall i, In i [1; 1; 1]%nat ->
      (Memory.weight Memory.integer_power b 1 i == 1 <->
       Memory.raw_weight Memory.integer_power b 1 i
       == Memory.max_weight Memory.integer_power b 1)%Q.
Proof.
  intros b.
  assert (Hpos : Forall (fun p => 0 < p)%Q (Memory.priorities b))
    by (repeat constructor).
  assert (Hlen : length (Memory.priorities b) = length (Memory.p_buffer b))
    by reflexivity.
  split; [exact Hpos|]. split; [exact Hlen|].
  eexists _, _, _. split; [reflexivity|].
  exact (sample_weights_at_most_one Memory.integer_power integer_power_pos
           b 1%Q [1; 1; 1]%nat _ _ _ Hpos Hlen eq_refl).
Defined.

(** C8, as the claim has it: two transitions stored, both drawn (each
    weighs 1), their priorities set to 1 and 2, then the slot of priority 2
    drawn three times: each of the three weights is 1/2, and the largest
    weight of the batch is not 1. *)
Lemma sample_batch_maximum_below_one :
  let b0 := Memory.prioritized_store Memory.done_transition
              (Memory.prioritized_store Memory.live_transition
                 (Memory.mkPrioritizedReplayBuffer 5 1 [] [] 0%nat [])) in
  exists batch1 weights1 b1 b2 batch2 weights2 b3,
    Memory.sample Memory.integer_power b0 1 [0; 1]%nat = Ok (batch1, weights1, b1) /\
    List.map Qred weights1 = [1; 1]%Q /\
    Memory.update_priorities [1; 2]%Q b1 = Ok b2 /\
    Memory.sample Memory.integer_power b2 1 [1; 1; 1]%nat = Ok (batch2, weights2, b3) /\
    List.map Qred weights2 = [1 # 2; 1 # 2; 1 # 2]%Q /\
    ~ Exists (fun x => x == 1)%Q weights2.
Proof.
  eexists _, _, _, _, _, _, _.
  repeat (split; [vm_compute; reflexivity|]).
  intros Hex. repeat (apply List.Exists_cons in Hex as [Hex|Hex];
                      [vm_compute in Hex; discriminate|]).
  apply List.Exists_nil in Hex. exact Hex.
Qed.

(** * Further properties *)

(** ** The rollout loop: where it stops *)

Section RolloutExit.

Import Worker.

Context {E A Ob G B : Type} `{Environment E A Ob} `{LazyAgent G A Ob B}.

(** An episode that ends, ends with the environment done. *)
Lemma episode_loop_done fuel :
  forall (w w' : worker E) (g g' : G) (a : A),
    episode_loop fuel w g a = Some (w', g') ->
    done (env w') = true /\ episodes w' = episodes w.
Proof.
  induction fuel as [|fuel IH]; intros w w' g g' a Hrun; cbn in Hrun.
  - destruct (done (env w)) eqn:Hd; [|discriminate].
    injection Hrun as <- <-. auto.
  - destruct (done (env w)) eqn:Hd.
    + injection Hrun as <- <-. auto.
    + destruct (act g (observe (step (env w) a))) as [g1 a1].
      apply IH in Hrun. cbn in Hrun. exact Hrun.
Qed.

(** When the outer loop returns a budget is spent, and either no episode was
    run and the environment was not touched, or the last episode is over. *)
Lemma sample_loop_exit max_frames max_episodes fuel :
  forall (w w' : worker E) (g g' : G),
    sample_loop fuel max_frames max_episodes w g = Some (w', g') ->
    lt_budget (frames w') max_frames && lt_budget (episodes w') max_episodes
    = false /\
    ((env w' = env w /\ frames w' = frames w /\ episodes w' = episodes w /\ g' = g) \/
     (done (env w') = true /\ (episodes w < episodes w')%nat)).
Proof.
  induction fuel as [|fuel IH]; intros w w' g g' Hrun; cbn [sample_loop] in Hrun.
  - destruct (lt_budget (frames w) max_frames &&
              lt_budget (episodes w) max_episodes) eqn:Hc; [discriminate|].
    injection Hrun as <- <-. cbn. split; [exact Hc|left; repeat split].
  - destruct (lt_budget (frames w) max_frames &&
              lt_budget (episodes w) max_episodes) eqn:Hc.
    + cbn [env frames episodes trace] in Hrun.
      destruct (act g (observe (reset (env w)))) as [g1 a].
      destruct (episode_loop fuel _ g1 a) as [[w2 g2]|] eqn:Hep; [|discriminate].
      apply episode_loop_done in Hep as [Hd He]. cbn in He.
      apply IH in Hrun as [Hexit Hcase]. split; [exact Hexit|]. right.
      cbn in Hcase. destruct Hcase as [(He' & _ & Hn & _)|[Hd' Hn]].
      * rewrite He', Hn. split; [assumption|lia].
      * split; [assumption|lia].
    + injection Hrun as <- <-. cbn. split; [exact Hc|left; repeat split].
Qed.

Variable rank : E -> nat.
Variable L : nat.
Hypothesis rank_step : forall e a, done e = false -> (rank (step e a) < rank e)%nat.
Hypothesis rank_reset : forall e, (rank (reset e) <= L)%nat.

(** The run of [sample], with all that is known at its end. *)
Lemma sample_runs (w : worker E) (g : G) max_frames max_episodes :
  (is_inf max_episodes = false \/
   (is_inf max_frames = false /\ forall e, done (reset e) = false)) ->
  forall fuel,
    (episodes_left max_frames max_episodes (mkWorker (env w) 0 0 []) + L
     <= fuel)%nat ->
    exists w' g',
      sample_loop fuel max_frames max_episodes (mkWorker (env w) 0 0 []) g
      = Some (w', g') /\
      sample fuel w g max_frames max_episodes = Some (w', buffer g') /\
      within L max_frames max_episodes w' /\
      lt_budget (frames w') max_frames && lt_budget (episodes w') max_episodes
      = false /\
      ((env w' = env w /\ frames w' = 0%nat /\ episodes w' = 0%nat /\ g' = g) \/
       (done (env w') = true /\ (0 < episodes w')%nat)).
Proof.
  intros Hfin fuel Hfuel.
  destruct (sample_loop_runs rank L rank_step rank_reset max_frames max_episodes
              Hfin fuel (mkWorker (env w) 0 0 []) g Hfuel)
    as (w' & g' & Hrun & Hin & _).
  - unfold within; cbn. repeat split; intros; lia.
  - reflexivity.
  - exists w', g'. split; [exact Hrun|]. unfold sample. rewrite Hrun.
    split; [reflexivity|]. split; [exact Hin|].
    apply sample_loop_exit in Hrun. exact Hrun.
Qed.

(** X1: [sample] stops at an episode boundary with a budget spent: when it
    returns, the frames have reached the frame budget or the episodes the
    episode budget; and either it ran no episode - then it left the
    environment as it was, never asked the agent to act and returns the
    agent's buffer as it came - or the environment is done. *)
Theorem sample_stops_at_episode_end :
  forall (w : worker E) (g : G) (max_frames max_episodes : budget),
    (is_inf max_episodes = false \/
     (is_inf max_frames = false /\ forall e, done (reset e) = false)) ->
    exists fuel0, forall fuel, (fuel0 <= fuel)%nat ->
      exists w' batch,
        sample fuel w g max_frames max_episodes = Some (w', batch) /\
        lt_budget (frames w') max_frames && lt_budget (episodes w') max_episodes
        = false /\
        ((env w' = env w /\ frames w' = 0%nat /\ episodes w' = 0%nat /\
          batch = buffer g) \/
         (done (env w') = true /\ (0 < episodes w')%nat)).
Proof.
  intros w g mf me Hfin.
  exists (episodes_left mf me (mkWorker (env w) 0 0 []) + L)%nat.
  intros fuel Hfuel.
  destruct (sample_runs w g mf me Hfin fuel Hfuel)
    as (w' & g' & _ & Hs & _ & Hexit & Hcase).
  exists w', (buffer g'). split; [exact Hs|]. split; [exact Hexit|].
  destruct Hcase as [(H1 & H2 & H3 & ->)|Hd]; auto.
Qed.

(** X2: with an episode budget alone, [sample] runs exactly that many
    episodes (none for a budget below zero). *)
Theorem sample_runs_every_episode :
  forall (w : worker E) (g : G) (n : Z),
    exists fuel0, forall fuel, (fuel0 <= fuel)%nat ->
      exists w' batch,
        sample fuel w g Infinite (Finite n) = Some (w', batch) /\
        episodes w' = Z.to_nat n.
Proof.
  intros w g n.
  exists (episodes_left Infinite (Finite n) (mkWorker (env w) 0 0 []) + L)%nat.
  intros fuel Hfuel.
  destruct (sample_runs w g Infinite (Finite n) (or_introl eq_refl) fuel Hfuel)
    as (w' & g' & _ & Hs & (Hle & _) & Hexit & _).
  exists w', (buffer g'). split; [exact Hs|].
  specialize (Hle n eq_refl). cbn in Hexit. apply Z.ltb_ge in Hexit. lia.
Qed.


End RolloutExit.

Lemma sample_stops_at_episode_end_witness :
  exists fuel0, forall fuel, (fuel0 <= fuel)%nat ->
    exists w' batch,
      @Worker.sample _ _ _ _ _ (Worker.countdown 3) Worker.counting_agent
        fuel (Worker.mkWorker 5 0 0 []) 0%nat (Finite 4) (Finite 7)
      = Some (w', batch) /\
      lt_budget (Worker.frames w') (Finite 4) &&
      lt_budget (Worker.episodes w') (Finite 7) = false /\
      ((Worker.env w' = 5%nat /\ Worker.frames w' = 0%nat /\
        Worker.episodes w' = 0%nat /\ batch = 0%nat) \/
       (@Worker.done _ _ _ (Worker.countdown 3) (Worker.env w') = true /\
        (0 < Worker.episodes w')%nat)).
Proof.
  apply (@sample_stops_at_episode_end _ _ _ _ _ (Worker.countdown 3)
           Worker.counting_agent (fun e => e) 3%nat).
  - intros e a. cbn. destruct e; [discriminate|lia].
  - intros e. cbn. lia.
  - left. reflexivity.
Defined.

Lemma sample_runs_every_episode_witness :
  exists fuel0, forall fuel, (fuel0 <= fuel)%nat ->
    exists w' batch,
      @Worker.sample _ _ _ _ _ (Worker.countdown 3) Worker.counting_agent
        fuel (Worker.mkWorker 0 0 0 []) 0%nat Infinite (Finite 6)
      = Some (w', batch) /\
      Worker.episodes w' = Z.to_nat 6.
Proof.
  apply (@sample_runs_every_episode _ _ _ _ _ (Worker.countdown 3)
           Worker.counting_agent (fun e => e) 3%nat).
  - intros e a. cbn. destruct e; [discriminate|lia].
  - intros e. cbn. lia.
Defined.


(** ** The sampler: construction, dispatch and harvest *)

Section DictMore.

Context {V : Type}.

Lemma dict_get_app k (d1 d2 : list (nat * V)) :
  dict_get k (d1 ++ d2)
  = match dict_get k d1 with Some v => Some v | None => dict_get k d2 end.
Proof.
  induction d1 as [|[k' v'] d1 IH]; cbn; [reflexivity|].
  destruct (Nat.eqb k' k); auto.
Qed.

(** Assigning to a key that is not there appends it. *)
Lemma dict_set_fresh k (v : V) d :
  dict_get k d = None -> dict_set k v d = d ++ [(k, v)].
Proof.
  induction d as [|[k' v'] d IH]; cbn; [reflexivity|].
  destruct (Nat.eqb k' k); [discriminate|]. intros Hd. now rewrite IH.
Qed.

(** Assigning to a key that is there keeps its place. *)
Lemma dict_set_app k (v v0 : V) pre rest :
  dict_get k pre = None ->
  dict_set k v (pre ++ (k, v0) :: rest) = pre ++ (k, v) :: rest.
Proof.
  induction pre as [|[k' v'] pre IH]; cbn.
  - now rewrite Nat.eqb_refl.
  - destruct (Nat.eqb k' k); [discriminate|]. intros Hd. now rewrite IH.
Qed.

End DictMore.

Section SamplerMore.

Context {Env Agent Batch : Type}.

Local Abbreviation sampler := (sampler Env).
Local Abbreviation world := (world Agent Batch).

Lemma seq_pairs (k : nat) :
  forall a b,
    combine (seq a k) (seq b k)
    = List.map (fun i => (a + i, b + i)) (seq 0 k).
Proof.
  induction k as [|k IH]; intros a b; cbn; [reflexivity|].
  rewrite !Nat.add_0_r. f_equal.
  rewrite IH, <- seq_shift, List.map_map.
  apply List.map_ext. intros i. f_equal; lia.
Qed.

(** Line 71-72 in full: handles in a row, the seed of worker [j] being
    [seed + j] when counting starts at [i = 0]. *)
Lemma make_workers_full seed count :
  forall i (w : world),
    make_workers seed i count w
    = (seq (length (ray_actors w)) count,
       mkWorld (_REPLAY_BUFFER w)
         (ray_actors w ++
          List.map (fun j => (length (ray_actors w) + j, (seed + Z.of_nat (i + j))%Z))
            (seq 0 count))
         (ray_jobs w) (stored w)).
Proof.
  induction count as [|count IH]; intros i w; cbn.
  - rewrite app_nil_r. now destruct w.
  - rewrite IH. cbn. rewrite length_app. cbn.
    replace (length (ray_actors w) + 1) with (S (length (ray_actors w))) by lia.
    f_equal. f_equal. rewrite <- app_assoc. cbn. f_equal.
    rewrite !Nat.add_0_r. f_equal.
    rewrite <- seq_shift, List.map_map.
    apply List.map_ext. intros j. f_equal; [lia|]. f_equal. lia.
Qed.

Lemma fresh_work_ids (workers : list Ray.ActorHandle) :
  forall d : list (Ray.ActorHandle * option Ray.ObjectID),
    List.NoDup workers ->
    (forall h, In h workers -> dict_get h d = None) ->
    fold_left (fun d worker => dict_set worker None d) workers d
    = d ++ List.map (fun h => (h, None)) workers.
Proof.
  induction workers as [|x rest IH]; intros d Hnd Hfresh; cbn.
  - now rewrite app_nil_r.
  - apply List.NoDup_cons_iff in Hnd as [Hx Hnd].
    rewrite dict_set_fresh by (apply Hfresh; now left).
    rewrite IH; [now rewrite <- app_assoc|assumption|].
    intros h Hh. rewrite dict_get_app, (Hfresh h) by now right. cbn.
    destruct (Nat.eqb_spec x h); [subst; contradiction|reflexivity].
Qed.

(** What [__init__] makes of the process, whether it raises or not. *)
Lemma init_full (env : Env) num_workers seed (w : world) :
  __init__ env num_workers seed w
  = (match _REPLAY_BUFFER w with
     | None => Raise (ValueError "replay_buffer is not set")
     | Some rb =>
         Ok (mkSampler env
               (seq (length (ray_actors w)) (Z.to_nat num_workers))
               (List.map (fun h => (h, None))
                  (seq (length (ray_actors w)) (Z.to_nat num_workers)))
               rb)
     end,
     mkWorld (_REPLAY_BUFFER w)
       (ray_actors w ++
        List.map (fun j => (length (ray_actors w) + j, (seed + Z.of_nat j)%Z))
          (seq 0 (Z.to_nat num_workers)))
       (ray_jobs w) (stored w)).
Proof.
  unfold __init__. rewrite make_workers_full. cbn.
  unfold get_replay_buffer. cbn.
  rewrite fresh_work_ids; [|apply List.seq_NoDup|reflexivity]. cbn.
  destruct (_REPLAY_BUFFER w); reflexivity.
Qed.

Lemma init_ok (env : Env) num_workers seed rb (w : world) :
  __init__ env num_workers seed (set_replay_buffer (Some rb) w)
  = (Ok (mkSampler env
           (seq (length (ray_actors w)) (Z.to_nat num_workers))
           (List.map (fun h => (h, None))
              (seq (length (ray_actors w)) (Z.to_nat num_workers)))
           rb),
     mkWorld (Some rb)
       (ray_actors w ++
        List.map (fun j => (length (ray_actors w) + j, (seed + Z.of_nat j)%Z))
          (seq 0 (Z.to_nat num_workers)))
       (ray_jobs w) (stored w)).
Proof. rewrite init_full. reflexivity. Qed.

(** X4: with a buffer registered, [AsyncSampler(env, num_workers, seed)]
    starts [num_workers] new actors (none for a count below one), worker [j]
    with the seed [seed + j]; it holds their handles in that order, every
    unit recorded as without a job, and the buffer registered; no job is
    started. *)
Theorem init_starts_seeded_workers :
  forall (env : Env) num_workers seed rb (w : world),
    let k := Z.to_nat num_workers in
    let h0 := length (ray_actors w) in
    __init__ env num_workers seed (set_replay_buffer (Some rb) w)
    = (Ok (mkSampler env (seq h0 k) (List.map (fun h => (h, None)) (seq h0 k)) rb),
       mkWorld (Some rb)
         (ray_actors w ++
          List.map (fun j => (h0 + j, (seed + Z.of_nat j)%Z)) (seq 0 k))
         (ray_jobs w) (stored w)).
Proof. intros. apply init_ok. Qed.


(** The loop of [start_sampling] over units that are all without a job. *)
Lemma start_loop_fresh g mf me (rest : list Ray.ActorHandle) :
  forall pre (s : sampler) (w : world),
    _work_ids s = pre ++ List.map (fun h => (h, None)) rest ->
    List.NoDup rest ->
    (forall h, In h rest -> dict_get h pre = None) ->
    start_loop rest g mf me s w
    = (Ok PyNone,
       mkSampler (_env s) (_workers s)
         (pre ++ List.map (fun p => (fst p, Some (snd p)))
                   (combine rest (seq (length (ray_jobs w)) (length rest))))
         (_replay_buffer s),
       mkWorld (_REPLAY_BUFFER w) (ray_actors w)
         (ray_jobs w ++
          List.map (fun p => mkJob (snd p) (fst p) g mf me)
            (combine rest (seq (length (ray_jobs w)) (length rest))))
         (stored w)).
Proof.
  induction rest as [|x rest IH]; intros pre s w Hids Hnd Hfresh; cbn.
  - cbn in Hids. rewrite !app_nil_r in *. destruct s, w. cbn in *. now subst.
  - apply List.NoDup_cons_iff in Hnd as [Hx Hnd].
    assert (Hxpre : dict_get x pre = None) by (apply Hfresh; now left).
    rewrite Hids. cbn. rewrite dict_get_app, Hxpre. cbn. rewrite Nat.eqb_refl.
    rewrite dict_set_app by assumption.
    rewrite (IH (pre ++ [(x, Some (length (ray_jobs w)))])); cbn.
    + rewrite length_app. cbn.
      replace (length (ray_jobs w) + 1) with (S (length (ray_jobs w))) by lia.
      rewrite <- !app_assoc. reflexivity.
    + now rewrite <- app_assoc.
    + assumption.
    + intros h Hh. rewrite dict_get_app, (Hfresh h) by now right. cbn.
      destruct (Nat.eqb_spec x h); [subst; contradiction|reflexivity].
Qed.

Lemma has_idle_fresh (ids : list (Ray.ActorHandle * Ray.ObjectID)) :
  existsb (fun e : Ray.ActorHandle * option Ray.ObjectID =>
             match snd e with None => true | Some _ => false end)
    (List.map (fun p => (fst p, Some (snd p))) ids) = false.
Proof. induction ids as [|p ids IH]; cbn; auto. Qed.

(** X6: the first [start_sampling] of a sampler, with a finite budget,
    gives every worker one job, in the order of the workers, each with the
    agent and the budgets of the call ("all the workers have the same
    agent"); it returns [None] and leaves no unit without a job. *)
Theorem start_sampling_gives_every_worker_a_job :
  forall (env : Env) num_workers seed rb (w : world) g max_frames max_episodes,
    is_inf max_frames && is_inf max_episodes = false ->
    let k := Z.to_nat num_workers in
    let h0 := length (ray_actors w) in
    let j0 := length (ray_jobs w) in
    exists s0 w1 s1 w2,
      __init__ env num_workers seed (set_replay_buffer (Some rb) w) = (Ok s0, w1) /\
      start_sampling s0 g max_frames max_episodes w1 = (Ok PyNone, s1, w2) /\
      _work_ids s1 = List.map (fun i => (h0 + i, Some (j0 + i))) (seq 0 k) /\
      ray_jobs w2
      = ray_jobs w ++
        List.map (fun i => mkJob (j0 + i) (h0 + i) g max_frames max_episodes)
          (seq 0 k) /\
      has_idle s1 = false.
Proof.
  intros env num_workers seed rb w g mf me Hfin k h0 j0.
  eexists _, _, _, _. split; [apply init_ok|].
  unfold start_sampling.
  replace (negb (negb (is_inf mf) || negb (is_inf me))) with false
    by (destruct mf, me; cbn in *; congruence).
  cbn [_workers].
  rewrite (start_loop_fresh g mf me _ []); cbn;
    [|reflexivity|apply List.seq_NoDup|reflexivity].
  rewrite length_seq, seq_pairs, !List.map_map. cbn.
  repeat split. unfold has_idle. cbn.
  rewrite <- (List.map_map (fun i => (h0 + i, j0 + i))
                (fun p => (fst p, Some (snd p)))).
  apply has_idle_fresh.
Qed.

(** With no unit idle the loop passes over every worker. *)
Lemma start_loop_all_busy g mf me (workers : list Ray.ActorHandle) :
  forall (s : sampler) (w : world),
    has_idle s = false ->
    snd (fst (start_loop workers g mf me s w)) = s /\
    snd (start_loop workers g mf me s w) = w.
Proof.
  induction workers as [|x rest IH]; intros s w Hidle; cbn; [auto|].
  destruct (dict_get x (_work_ids s)) as [[oid|]|] eqn:Hx; cbn; auto.
  exfalso. unfold has_idle in Hidle.
  assert (Hex : existsb (fun e : Ray.ActorHandle * option Ray.ObjectID =>
                           match snd e with None => true | Some _ => false end)
                  (_work_ids s) = true); [|congruence].
  clear Hidle. induction (_work_ids s) as [|[k' v'] d IHd]; cbn in *;
    [discriminate|].
  destruct (Nat.eqb k' x).
  - injection Hx as ->. reflexivity.
  - rewrite (IHd Hx). apply orb_true_r.
Qed.

(** X7: once no unit is recorded as idle, nothing the caller does changes
    that: after any calls of [start_sampling] and [store_samples] the
    sampler object is the same and Ray has no new job - no unit is given a
    second job, with whatever agent or budget [start_sampling] is called. *)
Theorem no_idle_unit_no_new_job :
  forall (s : sampler) (w : world) (calls : list (call Agent Batch)),
    has_idle s = false ->
    fst (run calls (s, w)) = s /\
    ray_jobs (snd (run calls (s, w))) = ray_jobs w.
Proof.
  intros s w calls Hidle. revert w.
  induction calls as [|c rest IH]; intros w; cbn; [auto|].
  assert (Hstep : fst (do_call (s, w) c) = s /\
                  ray_jobs (snd (do_call (s, w) c)) = ray_jobs w).
  { destruct c as [g mf me|completes fetch|rb]; cbn.
    - unfold start_sampling.
      destruct (negb (negb (is_inf mf) || negb (is_inf me))); cbn; [auto|].
      destruct (start_loop_all_busy g mf me (_workers s) s w Hidle) as [H1 H2].
      destruct (start_loop (_workers s) g mf me s w) as [[r s'] w'].
      cbn in *. now subst.
    - unfold store_samples.
      pose proof (store_loop_frame (_work_ids s) completes fetch s w) as Hfr.
      destruct (store_loop (_work_ids s) completes fetch s w) as [[r s'] w'].
      cbn in *. destruct Hfr as (-> & Hjobs & _). auto.
    - auto. }
  destruct (do_call (s, w) c) as [s' w'] eqn:Hc. cbn in Hstep.
  destruct Hstep as [-> Hjobs]. unfold run in IH.
  destruct (IH w') as [H1 H2]. rewrite H1, H2. auto.
Qed.

End SamplerMore.

Section HarvestFacts.

Context {Env Agent Batch : Type}.

Local Abbreviation sampler := (sampler Env).
Local Abbreviation world := (world Agent Batch).

Lemma batches_of_store_eq rb (batch : Batch) (w : world) :
  batches_of rb (buffer_store rb batch w) = batches_of rb w ++ [batch].
Proof. unfold batches_of, buffer_store. cbn. now rewrite dict_get_set_eq. Qed.

Lemma batches_of_store_ne rb rb' (batch : Batch) (w : world) :
  rb <> rb' ->
  batches_of rb' (buffer_store rb batch w) = batches_of rb' w.
Proof.
  intros Hne. unfold batches_of, buffer_store. cbn.
  now rewrite dict_get_set_ne.
Qed.

(** The loop of [store_samples]: it raises at the first entry without a
    job, and by then it has stored, in order, the batch of every job in
    front of that entry that was complete. *)
Lemma store_loop_harvest completes fetch (s : sampler) items :
  forall w : world,
    let r := store_loop items completes fetch s w in
    fst (fst r)
    = (if existsb (fun e : Ray.ActorHandle * option Ray.ObjectID =>
                     match snd e with None => true | Some _ => false end) items
       then Raise (TypeError "wait() expected a list of ray.ObjectID, got list containing <class 'NoneType'>")
       else Ok PyNone) /\
    batches_of (_replay_buffer s) (snd r)
    = batches_of (_replay_buffer s) w
      ++ List.map fetch (List.filter completes (waited items)) /\
    forall rb', _replay_buffer s <> rb' ->
                batches_of rb' (snd r) = batches_of rb' w.
Proof.
  induction items as [|[worker [oid|]] rest IH]; intros w; cbn.
  - rewrite app_nil_r. auto.
  - destruct (completes oid) eqn:Hc; cbn.
    + destruct (IH (buffer_store (_replay_buffer s) (fetch oid) w))
        as (H1 & H2 & H3). cbn in H1, H2, H3.
      split; [exact H1|]. split.
      * rewrite H2, batches_of_store_eq, <- app_assoc. reflexivity.
      * intros rb' Hne. rewrite (H3 rb' Hne). now apply batches_of_store_ne.
    + apply IH.
  - rewrite app_nil_r. auto.
Qed.


(** X9: [store_samples] touches nothing but the buffer the sampler holds:
    every other buffer object keeps its batches, and the registered buffer,
    the actors and the jobs of the process are as before. *)
Theorem store_samples_touches_own_buffer_only :
  forall (s : sampler) completes fetch (w : world) rb',
    rb' <> _replay_buffer s ->
    let r := store_samples s completes fetch w in
    batches_of rb' (snd r) = batches_of rb' w /\
    _REPLAY_BUFFER (snd r) = _REPLAY_BUFFER w /\
    ray_actors (snd r) = ray_actors w /\
    ray_jobs (snd r) = ray_jobs w.
Proof.
  intros s completes fetch w rb' Hne. unfold store_samples.
  destruct (store_loop_harvest completes fetch s (_work_ids s) w) as (_ & _ & H3).
  destruct (store_loop_frame (_work_ids s) completes fetch s w)
    as (_ & H4 & H5 & H6 & _).
  cbn zeta. repeat split; auto.
Qed.

(** X10: two calls of [store_samples] store twice: a job that is complete
    at both calls has its batch stored at each, so the second call appends
    its harvest to that of the first, whatever the first one stored. *)
Theorem store_samples_twice_stores_twice :
  forall (s : sampler) completes1 fetch1 completes2 fetch2 (w : world),
    let r1 := store_samples s completes1 fetch1 w in
    let r2 := store_samples (snd (fst r1)) completes2 fetch2 (snd r1) in
    batches_of (_replay_buffer s) (snd r2)
    = batches_of (_replay_buffer s) w
      ++ List.map fetch1 (List.filter completes1 (waited (_work_ids s)))
      ++ List.map fetch2 (List.filter completes2 (waited (_work_ids s))).
Proof.
  intros s c1 f1 c2 f2 w. cbn zeta. unfold store_samples.
  destruct (store_loop_frame (_work_ids s) c1 f1 s w) as (Hs & _).
  rewrite Hs.
  destruct (store_loop_harvest c2 f2 s (_work_ids s)
              (snd (store_loop (_work_ids s) c1 f1 s w))) as (_ & H2 & _).
  destruct (store_loop_harvest c1 f1 s (_work_ids s) w) as (_ & H1 & _).
  cbn zeta in H1, H2. rewrite H2, H1, <- app_assoc. reflexivity.
Qed.

End HarvestFacts.

(** A sampler of three workers after its first [start_sampling]. *)
Lemma start_sampling_gives_every_worker_a_job_witness :
  is_inf Infinite && is_inf (Finite 6) = false /\
  exists s0 w1 s1 w2,
    @__init__ unit unit nat tt 3 0 (set_replay_buffer (Some 0%nat) (fresh_world None))
    = (Ok s0, w1) /\
    start_sampling s0 tt Infinite (Finite 6) w1 = (Ok PyNone, s1, w2) /\
    _work_ids s1 = List.map (fun i => (0 + i, Some (0 + i)))%nat (seq 0 (Z.to_nat 3)) /\
    ray_jobs w2
    = [] ++ List.map (fun i => mkJob (0 + i) (0 + i) tt Infinite (Finite 6))%nat
              (seq 0 (Z.to_nat 3)) /\
    has_idle s1 = false.
Proof.
  split; [reflexivity|].
  exact (@start_sampling_gives_every_worker_a_job unit unit nat tt 3 0 0%nat
           (fresh_world None) tt Infinite (Finite 6) eq_refl).
Defined.

Lemma no_idle_unit_no_new_job_witness :
  let s := @mkSampler unit tt [0; 1]%nat [(0, Some 0); (1, Some 1)]%nat 0%nat in
  let w := @mkWorld unit nat (Some 0%nat) [(0, 0%Z); (1, 1%Z)]%nat
             [mkJob 0 0 tt Infinite (Finite 1); mkJob 1 1 tt Infinite (Finite 1)]%nat
             [] in
  let calls := [CallStore (fun _ => true) (fun oid => oid);
                CallStart tt (Finite 5) Infinite;
                CallStore (fun _ => true) (fun oid => oid)] in
  has_idle s = false /\
  fst (run calls (s, w)) = s /\
  ray_jobs (snd (run calls (s, w))) = ray_jobs w.
Proof.
  intros s w calls. split; [reflexivity|].
  exact (no_idle_unit_no_new_job s w calls eq_refl).
Defined.

Lemma store_samples_touches_own_buffer_only_witness :
  let s := @mkSampler unit tt [0]%nat [(0, Some 0)]%nat 0%nat in
  let w := @mkWorld unit nat (Some 0%nat) [(0, 0%Z)]%nat
             [mkJob 0 0 tt Infinite (Finite 1)]%nat [(1, [7])]%nat in
  let r := store_samples s (fun _ => true) (fun oid => oid) w in
  1%nat <> _replay_buffer s /\
  batches_of 1 (snd r) = batches_of 1 w /\
  _REPLAY_BUFFER (snd r) = _REPLAY_BUFFER w /\
  ray_actors (snd r) = ray_actors w /\
  ray_jobs (snd r) = ray_jobs w.
Proof.
  intros s w r.
  assert (Hne : 1%nat <> _replay_buffer s) by (cbn; lia).
  split; [exact Hne|].
  exact (store_samples_touches_own_buffer_only s (fun _ => true) (fun oid => oid)
           w 1%nat Hne).
Defined.

(** ** The module globals *)

Section InitializerFacts.

Import Initializer.

Context {Writer Logger Buffer : Type}.

Local Abbreviation state := (@Initializer.state Writer Logger Buffer).

(** X11: the setters do not interfere.  After any calls of the setters,
    each getter returns the argument of the last call of its own setter, or
    what it returned before when there was none - for the seed, of the last
    call with a seed that numpy takes, a call with another seed raising
    before anything is set; and [get_replay_buffer] raises exactly when the
    last buffer set is [None] or, none being set, there was none before. *)
Theorem getters_return_last_set :
  forall (calls : list (@setter Writer Logger Buffer)) (st : state),
    let st' := run_setters calls st in
    get_device st' = last_device calls (get_device st) /\
    get_seed st' = last_seed calls (get_seed st) /\
    get_writer st' = last_writer calls (get_writer st) /\
    get_logger st' = last_logger calls (get_logger st) /\
    get_replay_buffer st'
    = match last_replay_buffer calls (_REPLAY_BUFFER st) with
      | None => Raise (ValueError "replay_buffer is not set")
      | Some rb => Ok rb
      end.
Proof.
  induction calls as [|c rest IH]; intros st; cbn zeta.
  - cbn. unfold get_replay_buffer. repeat split.
  - unfold run_setters, last_device, last_seed, last_writer, last_logger,
      last_replay_buffer in *. cbn [fold_left].
    specialize (IH (apply_setter st c)). cbn zeta in IH.
    destruct IH as (H1 & H2 & H3 & H4 & H5).
    rewrite H1, H2, H3, H4, H5.
    destruct c as [d|seed|x|l|rb]; cbn; try (repeat split; reflexivity).
    unfold set_seed.
    destruct ((0 <=? seed)%Z && (seed <? 2 ^ 32)%Z); cbn; repeat split.
Qed.

End InitializerFacts.

(** ** GAIL *)

Section GailFacts.

Import Gail.

Context {Writer Logger Discriminator Policy : Type}.

Local Abbreviation GAIL := (@Gail.GAIL Writer Discriminator Policy).


(** X13: with the buffer above the start size and a positive
    [update_frequency], the discriminator is trained once in every
    [update_frequency] training steps: among that many consecutive values
    of [train_steps] exactly one makes [_should_train] true, and none makes
    it raise. *)
Theorem should_train_once_per_period :
  forall (self : GAIL) (len_buffer t : Z),
    (replay_start_size self < len_buffer)%Z ->
    (0 < update_frequency self)%Z ->
    (exists i, (0 <= i < update_frequency self)%Z /\
               _should_train self len_buffer (t + i) = Returns true /\
               forall j, (0 <= j < update_frequency self)%Z ->
                         _should_train self len_buffer (t + j) = Returns true ->
                         j = i) /\
    forall j, exists b, _should_train self len_buffer (t + j) = Returns b.
Proof.
  intros self len t Hlen Hf. unfold _should_train.
  apply Z.ltb_lt in Hlen. rewrite Hlen.
  assert (Hne : (update_frequency self =? 0)%Z = false) by (apply Z.eqb_neq; lia).
  rewrite Hne. set (f := update_frequency self) in *. split.
  - exists ((- t) mod f)%Z. split; [apply Z.mod_pos_bound; lia|]. split.
    + f_equal. apply Z.eqb_eq. rewrite Zplus_mod_idemp_r.
      replace (t + - t)%Z with 0%Z by lia. apply Zmod_0_l.
    + intros j Hj Hjt. injection Hjt as Hjt. apply Z.eqb_eq in Hjt.
      pose proof (Z.mod_pos_bound (- t) f Hf) as Hb.
      assert (Hdiv : ((j - (- t) mod f) mod f = 0)%Z).
      { rewrite Zminus_mod_idemp_r.
        replace (j - - t)%Z with (t + j)%Z by lia. exact Hjt. }
      apply Z.mod_divide in Hdiv; [|lia]. destruct Hdiv as [q Hq].
      assert (q = 0)%Z by nia. lia.
  - intros j. eexists. reflexivity.
Qed.

End GailFacts.

Lemma should_train_once_per_period_witness :
  let self := @Gail.mkGAIL unit unit unit
                (Gail.mkBaseAgent tt (Some (Gail.mkBufferObject 0 (Some tt))))
                (Gail.mkBufferObject 0 (Some tt)) tt tt "cpu" 32 5000 10 in
  (Gail.replay_start_size self < 5001)%Z /\
  (0 < Gail.update_frequency self)%Z /\
  (exists i, (0 <= i < Gail.update_frequency self)%Z /\
             Gail._should_train self 5001 (7 + i) = Gail.Returns true /\
             forall j, (0 <= j < Gail.update_frequency self)%Z ->
                       Gail._should_train self 5001 (7 + j) = Gail.Returns true ->
                       j = i) /\
  forall j, exists b, Gail._should_train self 5001 (7 + j) = Gail.Returns b.
Proof.
  intros self.
  assert (H1 : (Gail.replay_start_size self < 5001)%Z) by (cbn; lia).
  assert (H2 : (0 < Gail.update_frequency self)%Z) by (cbn; lia).
  split; [exact H1|]. split; [exact H2|].
  exact (should_train_once_per_period self 5001 7 H1 H2).
Defined.

(** ** The mock writer *)

Section MockWriterFacts.

Import MockWriter.

Context {V : Type}.

Local Abbreviation MockWriter := (MockWriter.MockWriter V).

(** One [add_scalar] is one update of the entry of its key. *)
Lemma add_scalar_data (m : MockWriter) key value step :
  data (add_scalar m key value step)
  = <[key := (fst (default ([], []) (data m !! key)) ++ [value],
              snd (default ([], []) (data m !! key)) ++ [_get_step m step])]>
      (data m).
Proof.
  unfold add_scalar. cbn.
  destruct (data m !! key) as [[vs ss]|] eqn:Hk; cbn;
    rewrite ?Hk, ?lookup_insert_eq; cbn; rewrite ?lookup_insert_eq; cbn;
    rewrite ?insert_insert_eq; reflexivity.
Qed.

(** X14: after any sequence of [add_scalar] calls the entry of a key holds
    the values of the calls made with that key, in order and after those it
    held, and as many steps, each resolved against the writer's counters -
    a step name that names no counter recorded as it is; a key no call was
    made with is as before. *)
Theorem add_scalar_records_in_order :
  forall (calls : list (string * V * step_value)) (m : MockWriter) (key : string),
    data (add_all calls m) !! key
    = match calls_for key calls with
      | [] => data m !! key
      | made =>
          Some (fst (default ([], []) (data m !! key))
                  ++ List.map (fun c => snd (fst c)) made,
                snd (default ([], []) (data m !! key))
                  ++ List.map (fun c => _get_step m (snd c)) made)
      end.
Proof.
  induction calls as [|[[k v] st] rest IH]; intros m key; [reflexivity|].
  unfold add_all in *. cbn [fold_left fst snd].
  rewrite IH, add_scalar_data. unfold calls_for. cbn [List.filter fst snd].
  destruct (String.eqb_spec k key) as [->|Hne].
  - rewrite lookup_insert_eq. cbn [default fst snd].
    destruct (List.filter _ rest) as [|c made]; cbn [List.map].
    + reflexivity.
    + unfold id. cbn [fst snd]. rewrite <- !app_assoc. reflexivity.
  - rewrite lookup_insert_ne by assumption. reflexivity.
Qed.

End MockWriterFacts.
